(** * cloudflare-dns-sync: a shallow embedding of the configuration loader
      and of the polling / sync loop, with the properties checked on it.

    Layout
    - [Go]        : the handful of Go runtime notions the program relies on
                    (errors, strconv, strings, io readers, log records);
    - [Config]    : [config], [config.load], [config.validate], [Load];
    - [NetURL]    : the part of net/url and net/http.NewRequest that
                    [newSyncFunc] executes when it builds its two templates;
    - [Sync]      : [newSyncFunc], the per-tick closure, and [run];
    - theorems.

    Go strings are byte strings: they are modelled by [string] (a list of
    8-bit [ascii] characters).  Go's [int] is the 64-bit one. *)

From Stdlib Require Import ZArith String Ascii List Bool Lia DecimalString DecimalPos.
From stdpp Require Import base option gmap strings.

Import ListNotations.
Local Open Scope string_scope.
Local Open Scope Z_scope.
Set Warnings "-register-all".

(* ===================================================================== *)
(** ** Go runtime notions *)
(* ===================================================================== *)

Module Go.

(** [strconv.ErrSyntax] and [strconv.ErrRange]. *)
Inductive num_err : Type := ErrSyntax | ErrRange.

(** The errors of net/url: [url.EscapeError], [url.InvalidHostError], and
    the plain [errors.New] ones. *)
Inductive url_err : Type :=
| EscapeError (s : string)
| InvalidHostError (s : string)
| url_errorString (text : string).

(** Go [error] values, as far as the program builds or forwards them.
    - [errors_New text]           is [errors.New(text)]; [fmt.Errorf] without
                                  a verb builds the same value;
    - [wrapError msg err]         is [fmt.Errorf("%s: %w", msg, err)]; the
                                  wrapped [err] may be the nil error (it is
                                  at one place of [load]);
    - [NumError fn num e]         is [*strconv.NumError];
    - [url_Error op url e]        is [*url.Error];
    - [foreign text]              is any error made outside the repository
                                  (os, encoding/json, net/http, io). *)
Inductive error : Type :=
| errors_New (text : string)
| wrapError (msg : string) (err : option error)
| NumError (fn num : string) (e : num_err)
| url_Error (op url : string) (e : url_err)
| foreign (text : string).

Definition fmt_Errorf (text : string) : error := errors_New text.

(** [err != nil]. *)
Definition not_nil (err : option error) : bool :=
  match err with Some _ => true | None => false end.

(** The message of the outermost wrapper: the "phase" a failure is filed
    under.  [fmt.Errorf("%s: %w", msg, err).Error()] starts with [msg ++ ": "]. *)
Definition phase (e : error) : option string :=
  match e with
  | wrapError msg _ => Some msg
  | _ => None
  end.

(** *** Integers *)

Definition max_uint64 : Z := 2 ^ 64 - 1.

(** Two's complement wrap-around of a 64-bit signed [int]. *)
Definition wrap64 (z : Z) : Z := (z + 2 ^ 63) mod 2 ^ 64 - 2 ^ 63.

Definition byte_val (c : ascii) : Z := Z.of_nat (nat_of_ascii c).

(** [strconv.Itoa]: the shortest decimal form, ["-"] in front of negatives. *)
Definition Itoa (i : Z) : string := NilZero.string_of_int (Z.to_int i).

(** The digit loop of the fast path of [strconv.Atoi]:
    [ch -= '0'; if ch > 9 { syntax error }; n = n*10 + int(ch)]
    ([ch] is a byte, so the subtraction wraps modulo 256). *)
Fixpoint atoi_digits (s : string) (n : Z) : option Z :=
  match s with
  | EmptyString => Some n
  | String ch rest =>
      let d := (byte_val ch - 48) mod 256 in
      if 9 <? d then None else atoi_digits rest (wrap64 (n * 10 + d))
  end.

(** The digit loop of [strconv.ParseUint(s, 10, 64)]; [inl] is the error. *)
Fixpoint parseuint_digits (s : string) (n : Z) : num_err + Z :=
  match s with
  | EmptyString => inr n
  | String c rest =>
      if (48 <=? byte_val c) && (byte_val c <=? 57) then
        let d := byte_val c - 48 in
        if max_uint64 / 10 + 1 <=? n then inl ErrRange
        else
          let n1 := n * 10 + d in
          if max_uint64 <? n1 then inl ErrRange else parseuint_digits rest n1
      else inl ErrSyntax
  end.

Definition ParseUint10 (s : string) : Z * option num_err :=
  match s with
  | EmptyString => (0, Some ErrSyntax)
  | _ =>
      match parseuint_digits s 0 with
      | inl ErrRange => (max_uint64, Some ErrRange)
      | inl ErrSyntax => (0, Some ErrSyntax)
      | inr n => (n, None)
      end
  end.

(** [strconv.ParseInt(s, 10, 0)]. *)
Definition ParseInt10 (s : string) : Z * option num_err :=
  match s with
  | EmptyString => (0, Some ErrSyntax)
  | String c rest =>
      let neg := Ascii.eqb c "-"%char in
      let s' := if Ascii.eqb c "+"%char || neg then rest else s in
      match ParseUint10 s' with
      | (_, Some ErrSyntax) => (0, Some ErrSyntax)
      | (un, _) =>
          let cutoff := 2 ^ 63 in
          if negb neg && (cutoff <=? un) then (cutoff - 1, Some ErrRange)
          else if neg && (cutoff <? un) then (- cutoff, Some ErrRange)
          else (if neg then - un else un, None)
      end
  end.

(** [strconv.Atoi] on a 64-bit platform: a fast path for 1 to 18 bytes, and
    [ParseInt(s, 10, 0)] for the rest. *)
Definition Atoi (s : string) : Z * option error :=
  let sLen := String.length s in
  if ((0 <? sLen) && (sLen <? 19))%nat then
    match s with
    | EmptyString => (0, Some (NumError "Atoi" s ErrSyntax))
    | String c0 rest =>
        let signed := Ascii.eqb c0 "-"%char || Ascii.eqb c0 "+"%char in
        let body := if signed then rest else s in
        if signed && (String.length body <? 1)%nat
        then (0, Some (NumError "Atoi" s ErrSyntax))
        else
          match atoi_digits body 0 with
          | None => (0, Some (NumError "Atoi" s ErrSyntax))
          | Some n => (if Ascii.eqb c0 "-"%char then wrap64 (- n) else n, None)
          end
    end
  else
    match ParseInt10 s with
    | (i64, Some e) => (i64, Some (NumError "Atoi" s e))
    | (i64, None) => (i64, None)
    end.

(** *** strings *)

Fixpoint HasPrefix (s prefix : string) : bool :=
  match prefix, s with
  | EmptyString, _ => true
  | String p prefix', String c s' => Ascii.eqb c p && HasPrefix s' prefix'
  | String _ _, EmptyString => false
  end.

(** [s[n:]] and [s[:n]]. *)
Fixpoint drop (n : nat) (s : string) : string :=
  match n, s with
  | O, _ => s
  | S n', String _ s' => drop n' s'
  | S _, EmptyString => EmptyString
  end.

Fixpoint take (n : nat) (s : string) : string :=
  match n, s with
  | O, _ => EmptyString
  | S n', String c s' => String c (take n' s')
  | S _, EmptyString => EmptyString
  end.

Definition HasSuffix (s suffix : string) : bool :=
  (String.length suffix <=? String.length s)%nat
  && String.eqb (drop (String.length s - String.length suffix) s) suffix.

(** [strings.TrimSuffix]. *)
Definition TrimSuffix (s suffix : string) : string :=
  if HasSuffix s suffix
  then take (String.length s - String.length suffix) s
  else s.

(** *** io *)

(** An [io.Reader]: the bytes still to be read, and how the stream ends,
    with [io.EOF] ([None]) or with an error. *)
Record reader : Type := mkReader { unread : string; fails : option error }.

Definition http_NoBody : reader := mkReader "" None.
Definition strings_NewReader (s : string) : reader := mkReader s None.
Definition io_NopCloser (r : reader) : reader := r.

(** [io.Copy(io.Discard, r)]: the reader afterwards, the byte count, the
    error. *)
Definition io_Copy_Discard (r : reader) : reader * Z * option error :=
  (mkReader "" (fails r), Z.of_nat (String.length (unread r)), fails r).

(** [io.ReadAll(r)]. *)
Definition io_ReadAll (r : reader) : reader * string * option error :=
  (mkReader "" (fails r), unread r, fails r).

(** *** log/slog *)

Inductive Level : Type := LevelInfo | LevelWarn | LevelError.

Inductive Attr : Type :=
| slog_String (key value : string)
| slog_Int (key : string) (value : Z)
| slog_Int64 (key : string) (value : Z)
| errAttr (err : option error).

Record Record_ : Type := LogAttrs
  { log_level : Level; log_msg : string; log_attrs : list Attr }.

End Go.
Export Go.

(* ===================================================================== *)
(** ** Configuration: [config], [load], [validate], [Load] *)
(* ===================================================================== *)

Module Config.

(** [type config struct]: [TTLPtr] is a [*int] ([None] is the nil pointer);
    [ttl] and [noCfgFile] are unexported, so the JSON decoder never writes
    them. *)
Record config : Type := mkConfig
  { ZoneID : string;
    RecordID : string;
    RecordName : string;
    ApiToken : string;
    TTLPtr : option Z;
    ttl : Z;
    noCfgFile : bool }.

#[global] Instance config_eq_dec : EqDecision config.
Proof. solve_decision. Defined.

(** [config{}], the zero value. *)
Definition config_zero : config := mkConfig "" "" "" "" None 0 false.

(** [isEmpty]: the receiver equals the zero value [config{}], all seven
    fields compared. *)
Definition isEmpty (c : config) : bool := bool_decide (c = config_zero).

(** What [os.Open(cfgFile)] followed by [json.NewDecoder(f).Decode(&result)]
    can do to the zero-valued local [result]:
    - [file_absent]: [os.Open] fails and [os.IsNotExist(err)] holds;
    - [file_unreadable e]: [os.Open] fails otherwise;
    - [file_malformed partial e]: [Decode] fails with [e], having written
      [partial] into [result];
    - [file_decoded r]: [Decode] succeeds and leaves [r] in [result]
      (the file [{}] leaves [config_zero]). *)
Inductive cfg_file : Type :=
| file_absent
| file_unreadable (e : error)
| file_malformed (partial : config) (e : error)
| file_decoded (r : config).

(** The decoder only writes the five exported fields. *)
Definition from_json (zone_id record_id record_name api_token : string)
    (ttl_field : option Z) : config :=
  mkConfig zone_id record_id record_name api_token ttl_field 0 false.

(** The process environment; [env !! k] is [os.LookupEnv(k)]. *)
Abbreviation environ := (gmap string string).

(** [os.LookupEnv(k)] guarded by "set and not the empty string". *)
Definition env_nonempty (env : environ) (k : string) : option string :=
  match env !! k with
  | Some v => if String.eqb v "" then None else Some v
  | None => None
  end.

(** The outcome of a method on [*config]: the receiver afterwards, the
    returned error, the records logged. *)
Record outcome : Type := mkOutcome
  { receiver : config; returned : option error; logged : list Record_ }.

Definition set_ZoneID (c : config) (v : string) : config :=
  mkConfig v (RecordID c) (RecordName c) (ApiToken c) (TTLPtr c) (ttl c) (noCfgFile c).
Definition set_RecordID (c : config) (v : string) : config :=
  mkConfig (ZoneID c) v (RecordName c) (ApiToken c) (TTLPtr c) (ttl c) (noCfgFile c).
Definition set_RecordName (c : config) (v : string) : config :=
  mkConfig (ZoneID c) (RecordID c) v (ApiToken c) (TTLPtr c) (ttl c) (noCfgFile c).
Definition set_ApiToken (c : config) (v : string) : config :=
  mkConfig (ZoneID c) (RecordID c) (RecordName c) v (TTLPtr c) (ttl c) (noCfgFile c).
Definition set_ttl (c : config) (v : Z) : config :=
  mkConfig (ZoneID c) (RecordID c) (RecordName c) (ApiToken c) (TTLPtr c) v (noCfgFile c).
Definition set_noCfgFile (c : config) (v : bool) : config :=
  mkConfig (ZoneID c) (RecordID c) (RecordName c) (ApiToken c) (TTLPtr c) (ttl c) v.

(** One string field of [load]: only when the field of [result] is still
    the empty string is the variable looked up, and it is taken only when it
    is set and not empty. *)
Definition fill_from_env (env : environ) (k : string)
    (get : config -> string) (set : config -> string -> config)
    (result : config) : config :=
  if String.eqb (get result) "" then
    match env_nonempty env k with
    | Some v => set result v
    | None => result
    end
  else result.

(** The anonymous function at the head of [load]: the local [result], the
    flag [noCfgFile], the error. *)
Definition open_and_decode (file : cfg_file) : config * bool * option error :=
  match file with
  | file_absent => (config_zero, true, None)
  | file_unreadable e => (config_zero, false, Some e)
  | file_malformed partial e => (partial, false, Some e)
  | file_decoded r => (r, false, None)
  end.

Definition msg_load_file : string := "failed to load config file".
Definition msg_parse_ttl : string :=
  "failed to parse CLOUDFLARE_RECORD_TTL environment variable".
Definition msg_no_configuration : string := "no configuration".

(** The TTL step of [load]: [inl] is the early error return. *)
Definition load_ttl (env : environ) (result : config)
    : (error * list Record_) + config :=
  match env_nonempty env "CLOUDFLARE_RECORD_TTL" with
  | Some s =>
      let '(v, err) := Atoi s in
      if not_nil err || negb (String.eqb (Itoa v) s) then
        inl (wrapError msg_parse_ttl err,
             [LogAttrs LevelError msg_parse_ttl [errAttr err]])
      else inr (set_ttl result v)
  | None =>
      match TTLPtr result with
      | None => inr (set_ttl result 120)
      | Some p => inr (set_ttl result p)
      end
  end.

(** [func (c *config) load(ctx, logger, cfgFile) error].  [c] is the
    receiver on entry; it is overwritten by the single assignment
    [*c = result] that precedes [return nil]. *)
Definition load (c : config) (file : cfg_file) (env : environ) : outcome :=
  let '(result, noCfg, err) := open_and_decode file in
  match err with
  | Some e =>
      mkOutcome c (Some (wrapError msg_load_file (Some e)))
        [LogAttrs LevelError msg_load_file [errAttr (Some e)]]
  | None =>
      let emptyCfgFile := if negb noCfg then isEmpty result else false in
      let result := fill_from_env env "CLOUDFLARE_ZONE_ID" ZoneID set_ZoneID result in
      let result := fill_from_env env "CLOUDFLARE_RECORD_ID" RecordID set_RecordID result in
      let result := fill_from_env env "CLOUDFLARE_RECORD_NAME" RecordName set_RecordName result in
      match load_ttl env result with
      | inl (e, logs) => mkOutcome c (Some e) logs
      | inr result =>
          let result := fill_from_env env "CLOUDFLARE_API_TOKEN" ApiToken set_ApiToken result in
          (* result.noCfgFile = noCfgFile; *c = result; return nil *)
          let assigned := mkOutcome (set_noCfgFile result noCfg) None [] in
          if isEmpty result then
            if noCfg then
              mkOutcome c (Some (errors_New msg_no_configuration))
                [LogAttrs LevelError msg_no_configuration
                   [slog_String "status" "no config file found and no environment variables set"]]
            else if emptyCfgFile then
              mkOutcome c (Some (errors_New msg_no_configuration))
                [LogAttrs LevelError msg_no_configuration
                   [slog_String "status" "config file is empty and no environment variables set"]]
            else assigned
          else assigned
      end
  end.

Definition err_api_token : error := fmt_Errorf "CLOUDFLARE_API_TOKEN is required".
Definition err_zone_id : error := fmt_Errorf "CLOUDFLARE_ZONE_ID is required".
Definition err_record_id : error := fmt_Errorf "CLOUDFLARE_RECORD_ID is required".
Definition err_record_name : error := fmt_Errorf "CLOUDFLARE_RECORD_NAME is required".
Definition err_ttl : error := fmt_Errorf "CLOUDFLARE_RECORD_TTL must be greater than 0".

(** The checks of [validate], in source order. *)
Definition validate_checks (c : config) : option error :=
  if String.eqb (ApiToken c) "" then Some err_api_token
  else if String.eqb (ZoneID c) "" then Some err_zone_id
  else if String.eqb (RecordID c) "" then Some err_record_id
  else if String.eqb (RecordName c) "" then Some err_record_name
  else if ttl c <? 1 then Some err_ttl
  else None.

(** [func (c *config) validate(ctx, logger) (_err error)]: the deferred
    function logs only when there is an error and no config file. *)
Definition validate (c : config) : outcome :=
  let _err := validate_checks c in
  mkOutcome c _err
    (match _err with
     | Some e =>
         if noCfgFile c then
           [LogAttrs LevelError "configuration validation failed"
              [slog_String "note" "no config file found"; errAttr (Some e)]]
         else []
     | None => []
     end).

(** [func (c *config) Load(ctx, logger, cfgFile) error]. *)
Definition Load (c : config) (file : cfg_file) (env : environ) : outcome :=
  let o := load c file env in
  match returned o with
  | Some e => o
  | None =>
      let o' := validate (receiver o) in
      mkOutcome (receiver o') (returned o') (logged o ++ logged o')%list
  end.

(** *** Notions used to state the properties of [load] and [validate] *)

(** The three string merges that precede the TTL step of [load]. *)
Definition merged_ids (env : environ) (result : config) : config :=
  fill_from_env env "CLOUDFLARE_RECORD_NAME" RecordName set_RecordName
    (fill_from_env env "CLOUDFLARE_RECORD_ID" RecordID set_RecordID
       (fill_from_env env "CLOUDFLARE_ZONE_ID" ZoneID set_ZoneID result)).

(** A priority rule for one string field: the value of the file when it is
    not empty, else the variable when it is set and not empty. *)
Definition file_then_env (env : environ) (key : string)
    (of_file merged : string) : Prop :=
  (of_file <> "" -> merged = of_file)
  /\ (of_file = "" -> forall v, env_nonempty env key = Some v -> merged = v).

(** The four strings [validate] checks before the TTL. *)
Definition strings_present (c : config) : Prop :=
  ApiToken c <> "" /\ ZoneID c <> "" /\ RecordID c <> "" /\ RecordName c <> "".

End Config.
Export Config.

(* ===================================================================== *)
(** ** net/url and net/http.NewRequest, as [newSyncFunc] uses them *)
(* ===================================================================== *)

(** [newSyncFunc] panics when [http.NewRequest] fails, and [http.NewRequest]
    fails when [url.Parse] does.  This module follows the Go standard
    library (net/url/url.go: [shouldEscape], [escape], [unescape],
    [getScheme], [parseAuthority], [parseHost], [setPath], [parse], [Parse])
    function by function, on byte strings. *)
Module NetURL.

(** The result of a library call of which only a part is modelled:
    [Unmodelled] marks the branches left out ([user:password@] authorities,
    bracketed IPv6 hosts, hosts with a port).  The theorems show that the
    program never reaches them. *)
Inductive res (E A : Type) : Type :=
| Ok (a : A)
| Err (e : E)
| Unmodelled.
Arguments Ok {E A} a.
Arguments Err {E A} e.
Arguments Unmodelled {E A}.

Definition is_byte (c : ascii) (lit : ascii) : bool := Ascii.eqb c lit.

(** The double quote, byte 0x22. *)
Definition dquote : ascii := ascii_of_nat 34.

Definition in_range (lo hi c : ascii) : bool :=
  (byte_val lo <=? byte_val c) && (byte_val c <=? byte_val hi).

Definition is_alpha (c : ascii) : bool :=
  in_range "a" "z" c || in_range "A" "Z" c.
Definition is_digit (c : ascii) : bool := in_range "0" "9" c.

(** Whether [c] is one of the bytes of [set]. *)
Fixpoint one_of (set : string) (c : ascii) : bool :=
  match set with
  | EmptyString => false
  | String x set' => Ascii.eqb c x || one_of set' c
  end.

(** *** Byte-level strings helpers: [strings.IndexByte], [LastIndexByte],
    [Count] and [Cut] with a one-byte separator. *)

Fixpoint IndexByte (s : string) (c : ascii) : Z :=
  match s with
  | EmptyString => -1
  | String a s' =>
      if Ascii.eqb a c then 0
      else let i := IndexByte s' c in if i <? 0 then -1 else i + 1
  end.

Fixpoint LastIndexByte (s : string) (c : ascii) : Z :=
  match s with
  | EmptyString => -1
  | String a s' =>
      let j := LastIndexByte s' c in
      if 0 <=? j then j + 1 else if Ascii.eqb a c then 0 else -1
  end.

Fixpoint CountByte (s : string) (c : ascii) : Z :=
  match s with
  | EmptyString => 0
  | String a s' => (if Ascii.eqb a c then 1 else 0) + CountByte s' c
  end.

Definition Cut (s : string) (sep : ascii) : string * string * bool :=
  let i := IndexByte s sep in
  if 0 <=? i then (take (Z.to_nat i) s, drop (Z.to_nat i + 1) s, true)
  else (s, "", false).

(** [strings.ToLower] on the ASCII letters (a scheme has no other). *)
Definition lower (c : ascii) : ascii :=
  if in_range "A" "Z" c then ascii_of_nat (nat_of_ascii c + 32) else c.

Fixpoint ToLower (s : string) : string :=
  match s with
  | EmptyString => EmptyString
  | String c s' => String (lower c) (ToLower s')
  end.

(** *** Escaping *)

(** The escaping modes this program exercises. *)
Inductive encoding : Type := encodePath | encodePathSegment | encodeHost.

(** [url.shouldEscape]. *)
Definition shouldEscape (c : ascii) (mode : encoding) : bool :=
  if is_alpha c || is_digit c then false
  else if match mode with encodeHost => one_of "!$&'()*+,;=:[]<>" c || is_byte c dquote
              | _ => false end
  then false
  else if one_of "-_.~" c then false
  else if one_of "$&+,/:;=?@" c then
    match mode with
    | encodePath => is_byte c "?"
    | encodePathSegment => one_of "/;,?" c
    | encodeHost => true
    end
  else true.

Definition upperhex : string := "0123456789ABCDEF".

Definition hex_at (n : Z) : ascii :=
  match String.get (Z.to_nat n) upperhex with
  | Some d => d
  | None => "0"%char
  end.

(** [url.escape(s, mode)]: a byte that [shouldEscape] becomes [%XX], with
    [XX] its upper-case hexadecimal value ([c>>4] then [c&15]). *)
Fixpoint escape (s : string) (mode : encoding) : string :=
  match s with
  | EmptyString => EmptyString
  | String c s' =>
      if shouldEscape c mode then
        String "%" (String (hex_at (Z.shiftr (byte_val c) 4))
                      (String (hex_at (Z.land (byte_val c) 15)) (escape s' mode)))
      else String c (escape s' mode)
  end.

(** [url.PathEscape]. *)
Definition PathEscape (s : string) : string := escape s encodePathSegment.

Definition ishex (c : ascii) : bool :=
  in_range "0" "9" c || in_range "a" "f" c || in_range "A" "F" c.

Definition unhex (c : ascii) : Z :=
  if in_range "0" "9" c then byte_val c - 48
  else if in_range "a" "f" c then byte_val c - 97 + 10
  else if in_range "A" "F" c then byte_val c - 65 + 10
  else 0.

(** [url.unescape(s, mode)] for the three modes above: a [%] needs two
    hexadecimal digits after it; in a host an escaped byte must be at least
    0x80 (or be [%25]), and an ASCII byte that [shouldEscape] is rejected. *)
Fixpoint unescape (s : string) (mode : encoding) : url_err + string :=
  match s with
  | EmptyString => inr EmptyString
  | String c rest =>
      if is_byte c "%" then
        match rest with
        | String h (String l rest') =>
            if ishex h && ishex l then
              if match mode with encodeHost => true | _ => false end
                 && (unhex h <? 8)
                 && negb (is_byte h "2" && is_byte l "5")
              then inl (EscapeError (take 3 s))
              else
                match unescape rest' mode with
                | inl e => inl e
                | inr t =>
                    (* unhex(s[i+1])<<4 | unhex(s[i+2]) *)
                    inr (String (ascii_of_nat
                                   (Z.to_nat (Z.lor (Z.shiftl (unhex h) 4) (unhex l)))) t)
                end
            else inl (EscapeError (take 3 s))
        | _ => inl (EscapeError (take 3 s))
        end
      else if match mode with encodeHost => true | _ => false end
              && (byte_val c <? 128) && shouldEscape c encodeHost
      then inl (InvalidHostError (String c EmptyString))
      else
        match unescape rest mode with
        | inl e => inl e
        | inr t => inr (String c t)
        end
  end.

(** *** Parsing *)

(** [url.URL], without [User], [RawFragment]. *)
Record URL : Type := mkURL
  { Scheme : string;
    Opaque : string;
    Host : string;
    Path : string;
    RawPath : string;
    OmitHost : bool;
    ForceQuery : bool;
    RawQuery : string;
    Fragment : string }.

(** [stringContainsCTLByte]: a byte below 0x20, or 0x7f. *)
Fixpoint stringContainsCTLByte (s : string) : bool :=
  match s with
  | EmptyString => false
  | String b s' =>
      (byte_val b <? 32) || (byte_val b =? 127) || stringContainsCTLByte s'
  end.

(** The loop of [url.getScheme]; [i] is the index reached, [seen] the
    bytes before it, in reverse. *)
Fixpoint getScheme_from (rawURL : string) (i : nat) (s : string)
    : url_err + (string * string) :=
  match s with
  | EmptyString => inr ("", rawURL)
  | String c s' =>
      if is_alpha c then getScheme_from rawURL (S i) s'
      else if is_digit c || one_of "+-." c then
        if (i =? 0)%nat then inr ("", rawURL) else getScheme_from rawURL (S i) s'
      else if is_byte c ":" then
        if (i =? 0)%nat then inl (url_errorString "missing protocol scheme")
        else inr (take i rawURL, s')
      else inr ("", rawURL)
  end.

Definition getScheme (rawURL : string) : url_err + (string * string) :=
  getScheme_from rawURL 0 rawURL.

(** [url.parseHost], for a host without [\[] and without [:]. *)
Definition parseHost (host : string) : res url_err string :=
  if HasPrefix host "[" then Unmodelled
  else if 0 <=? LastIndexByte host ":" then Unmodelled
  else
    match unescape host encodeHost with
    | inl e => Err e
    | inr h => Ok h
    end.

(** [url.parseAuthority], for an authority without [@]. *)
Definition parseAuthority (authority : string) : res url_err string :=
  if LastIndexByte authority "@" <? 0 then parseHost authority
  else Unmodelled.

(** [URL.setPath]: [Path] is the unescaped text, [RawPath] is kept only
    when the default escaping of [Path] differs from the text given. *)
Definition setPath (u : URL) (p : string) : url_err + URL :=
  match unescape p encodePath with
  | inl e => inl e
  | inr path =>
      let raw := if String.eqb p (escape path encodePath) then "" else p in
      inr (mkURL (Scheme u) (Opaque u) (Host u) path raw (OmitHost u)
             (ForceQuery u) (RawQuery u) (Fragment u))
  end.

(** [url.parse(rawURL, false)]. *)
Definition parse (rawURL : string) : res url_err URL :=
  if stringContainsCTLByte rawURL then
    Err (url_errorString "net/url: invalid control character in URL")
  else if String.eqb rawURL "*" then
    Ok (mkURL "" "" "" "*" "" false false "" "")
  else
    match getScheme rawURL with
    | inl e => Err e
    | inr (scheme, rest) =>
        let scheme := ToLower scheme in
        let '(rest, force, query) :=
          if HasSuffix rest "?" && (CountByte rest "?" =? 1)
          then (take (String.length rest - 1) rest, true, "")
          else let '(r, q, _) := Cut rest "?" in (r, false, q) in
        let u := mkURL scheme "" "" "" "" false force query "" in
        let with_path (u : URL) (rest : string) : res url_err URL :=
          match setPath u rest with
          | inl e => Err e
          | inr u' => Ok u'
          end in
        let with_authority (rest : string) : res url_err URL :=
          if (negb (String.eqb scheme "") || negb (HasPrefix rest "///"))
             && HasPrefix rest "//"
          then
            let authority := drop 2 rest in
            let i := IndexByte authority "/" in
            let '(authority, rest) :=
              if 0 <=? i
              then (take (Z.to_nat i) authority, drop (Z.to_nat i) authority)
              else (authority, "") in
            match parseAuthority authority with
            | Ok host =>
                with_path (mkURL scheme "" host "" "" false force query "") rest
            | Err e => Err e
            | Unmodelled => Unmodelled
            end
          else if negb (String.eqb scheme "") && HasPrefix rest "/"
          then with_path (mkURL scheme "" "" "" "" true force query "") rest
          else with_path u rest in
        if negb (HasPrefix rest "/") then
          if negb (String.eqb scheme "") then
            Ok (mkURL scheme rest "" "" "" false force query "")
          else
            let '(segment, _, _) := Cut rest "/" in
            if 0 <=? IndexByte segment ":" then
              Err (url_errorString "first path segment in URL cannot contain colon")
            else with_authority rest
        else with_authority rest
    end.

(** [url.Parse]: the fragment is cut off at the first [#]; a URL with a
    non-empty fragment is left out. *)
Definition Parse (rawURL : string) : res error URL :=
  let '(u, frag, _) := Cut rawURL "#" in
  match parse u with
  | Err e => Err (url_Error "parse" u e)
  | Unmodelled => Unmodelled
  | Ok url => if String.eqb frag "" then Ok url else Unmodelled
  end.

(** *** Notions used to state the properties of the escaping *)

(** The byte that two hexadecimal digits stand for. *)
Definition unhex2 (h l : ascii) : ascii :=
  ascii_of_nat (Z.to_nat (Z.lor (Z.shiftl (unhex h) 4) (unhex l))).

Fixpoint no_percent (p : string) : bool :=
  match p with
  | EmptyString => true
  | String c p' => negb (is_byte c "%") && no_percent p'
  end.

End NetURL.
Export NetURL.

(* ===================================================================== *)
(** ** The sync loop: [newSyncFunc], one tick, [run] *)
(* ===================================================================== *)

Module Sync.

(** The line feed that [json.Encoder.Encode] appends. *)
Definition LF : string := String (ascii_of_nat 10) EmptyString.

(** [http.Header]; every key the program sets is already in canonical
    MIME form, so [Set] is a plain replacement. *)
Abbreviation Header := (gmap string (list string)).

Definition Header_Set (h : Header) (key value : string) : Header :=
  <[key := [value]]> h.

(** [http.Request], with the fields the program touches.  [GetBody] is
    [None] for the nil function. *)
Record Request : Type := mkRequest
  { Method : string;
    URL_ : URL;
    header : Header;
    Body : reader;
    GetBody : option reader;
    Host_ : string }.

Record Response : Type := mkResponse { StatusCode : Z; resp_Body : reader }.

(** [httpguts.IsTokenRune] on bytes. *)
Definition isToken (c : ascii) : bool :=
  is_alpha c || is_digit c || one_of "!#$%&'*+-.^_`|~" c.

Fixpoint all_token (s : string) : bool :=
  match s with
  | EmptyString => true
  | String c s' => isToken c && all_token s'
  end.

Definition validMethod (method : string) : bool :=
  (0 <? String.length method)%nat && all_token method.

(** [removeEmptyPort]: drops a trailing [:] of a host that has a port. *)
Definition removeEmptyPort (host : string) : string :=
  if LastIndexByte host "]" <? LastIndexByte host ":"
  then TrimSuffix host ":" else host.

(** [http.NewRequest(method, url, http.NoBody)]. *)
Definition http_NewRequest (method url : string) : res error Request :=
  let method := if String.eqb method "" then "GET" else method in
  if negb (validMethod method) then Err (foreign "net/http: invalid method")
  else
    match Parse url with
    | Err e => Err e
    | Unmodelled => Unmodelled
    | Ok u =>
        let host := removeEmptyPort (Host u) in
        let u := mkURL (Scheme u) (Opaque u) host (Path u) (RawPath u)
                   (OmitHost u) (ForceQuery u) (RawQuery u) (Fragment u) in
        Ok (mkRequest method u ∅ http_NoBody None host)
    end.

(** [Request.Clone(ctx)]: a deep copy of the header and the URL, the
    same body; on values, the identity. *)
Definition Clone (r : Request) : Request := r.

Definition set_Body (r : Request) (b : reader) : Request :=
  mkRequest (Method r) (URL_ r) (header r) b (GetBody r) (Host_ r).
Definition set_GetBody (r : Request) (g : option reader) : Request :=
  mkRequest (Method r) (URL_ r) (header r) (Body r) g (Host_ r).
Definition set_header (r : Request) (h : Header) : Request :=
  mkRequest (Method r) (URL_ r) h (Body r) (GetBody r) (Host_ r).

(** What [hc.Do(req)] does in one tick: the transport reads [sent] bytes
    of the request body and yields a response or an error. *)
Record round_trip : Type := mkRoundTrip
  { sent : nat; reply : Response + error }.

Abbreviation http_Client := (Request -> round_trip).

(** What a tick does to the outside, in order. *)
Inductive event : Type :=
| ev_log (r : Record_)
| ev_Do (req : Request)
| ev_Close (body : reader)
| ev_CloseIdleConnections.

(** [2xx]: the negation of [StatusCode < 200 || StatusCode >= 300]. *)
Definition non_2xx (status : Z) : bool := (status <? 200) || (300 <=? status).

(** The decorator [run] passes to [newSyncFunc]. *)
Definition user_agent : string :=
  "github.com---josephcopenhaver--cloudflare-dns-sync/1.0".
Definition run_reqDeco (r : Request) : Request :=
  set_header r (Header_Set (header r) "User-Agent" user_agent).

Definition msg_determine_ip : string := "failed to determine IP address".
Definition msg_verify_update : string :=
  "failed to verify Cloudflare DNS record was updated".
Definition msg_unexpected_status : string :=
  "unexpected response status code from cloudflare".

(** The four constant pieces of the request body, written with [qq] for
    the double quotes:
    [{"type":"A","name":]   [,"content":]   [,"ttl":]   [,"proxied":false}]. *)
Definition qq (s : string) : string := String dquote (s ++ String dquote "").
Definition body_head : string := "{" ++ qq "type" ++ ":" ++ qq "A" ++ "," ++ qq "name" ++ ":".
Definition body_mid : string := "," ++ qq "content" ++ ":".
Definition body_ttl : string := "," ++ qq "ttl" ++ ":".
Definition body_tail : string := "," ++ qq "proxied" ++ ":false}".

Section WithLibraries.

(** Library functions taken as they are:
    - [net_ParseIP s] is [net.ParseIP(s) != nil];
    - [strings_TrimSpace] is [strings.TrimSpace];
    - [json_Marshal s] is the JSON text [encoding/json] writes for the Go
      string [s]. *)
Variable net_ParseIP : string -> bool.
Variable strings_TrimSpace : string -> string.
Variable json_Marshal : string -> string.

(** [json.NewEncoder(&buf).Encode(v)] for a string [v]: the JSON text and a
    line feed are appended to the buffer; there is no failing path. *)
Definition Encoder_Encode (buf : string) (v : string) : string * option error :=
  (buf ++ json_Marshal v ++ LF, None).

(** The variables the closure returned by [newSyncFunc] captures, [oldIP]
    apart (it is the state threaded through [syncFunc]). *)
Record closure : Type := mkClosure
  { apiToken : string;
    reqBodyStrPrefix : string;
    reqBodyStrSuffix : string;
    readIPBaseReq : Request;
    setRecordBaseReq : Request;
    reqDeco : Request -> Request }.

Definition checkip_url : string := "https://checkip.amazonaws.com/".
Definition record_url (cfg : config) : string :=
  "https://api.cloudflare.com/client/v4/zones/" ++ PathEscape (ZoneID cfg)
  ++ "/dns_records/" ++ PathEscape (RecordID cfg).

(** [newSyncFunc(cfg, hc, reqDeco)]; [Err v] is [panic(v)]. *)
Definition newSyncFunc (cfg : config) (deco : Request -> Request)
    : res error closure :=
  match Encoder_Encode "" (RecordName cfg) with
  | (_, Some err) =>
      Err (wrapError "failed to json encode record name" (Some err))
  | (buf, None) =>
      let prefix := body_head ++ TrimSuffix buf LF ++ body_mid in
      let suffix := body_ttl ++ Itoa (ttl cfg) ++ body_tail in
      match http_NewRequest "GET" checkip_url with
      | Err err => Err err
      | Unmodelled => Unmodelled
      | Ok readIP =>
          match http_NewRequest "PUT" (record_url cfg) with
          | Err err =>
              Err (wrapError
                     "failed to create base request for setting DNS record"
                     (Some err))
          | Unmodelled => Unmodelled
          | Ok setRecord =>
              Ok (mkClosure (ApiToken cfg) prefix suffix readIP setRecord deco)
          end
      end
  end.

(** The outcome of the first anonymous function of a tick: the outer
    variables [ip] and [jsonIP] it assigns, its error, what it did. *)
Record discovery : Type := mkDiscovery
  { d_ip : string; d_jsonIP : string; d_err : option error; d_trace : list event }.

(** The request body as the caller sees it once the transport has read
    [n] bytes of it. *)
Definition after_send (n : nat) (body : reader) : reader :=
  mkReader (drop n (unread body)) (fails body).

(** The IP-discovery step (the first [func() error] of the closure). *)
Definition discover (f : closure) (hc : http_Client) : discovery :=
  let req := reqDeco f (Clone (readIPBaseReq f)) in
  let rt := hc req in
  match reply rt with
  | inr err =>
      mkDiscovery "" ""
        (Some (wrapError "failed to get response from checkip.amazonaws.com" (Some err)))
        [ev_Do req]
  | inl resp =>
      let req_Body := after_send (sent rt) (Body req) in
      if non_2xx (StatusCode resp) then
        (* io.Copy(io.Discard, req.Body) *)
        let '(_, _, err) := io_Copy_Discard req_Body in
        match err with
        | Some e =>
            mkDiscovery "" "" (Some e) [ev_Do req; ev_Close (resp_Body resp)]
        | None =>
            mkDiscovery "" ""
              (Some (errors_New
                       ("response status code from checkip.amazonaws.com is not in 2xx range: "
                        ++ Itoa (StatusCode resp))))
              [ev_Do req; ev_Close (resp_Body resp)]
        end
      else
        let '(body', b, err) := io_ReadAll (resp_Body resp) in
        match err with
        | Some e => mkDiscovery "" "" (Some e) [ev_Do req; ev_Close body']
        | None =>
            let ip := strings_TrimSpace b in
            if negb (net_ParseIP ip) then
              mkDiscovery ip ""
                (Some (errors_New
                         "checkip.amazonaws.com failed to return a valid IP address in response body"))
                [ev_Do req; ev_Close body']
            else
              match Encoder_Encode "" ip with
              | (_, Some e) =>
                  mkDiscovery ip ""
                    (Some (wrapError "failed to json encode ip" (Some e)))
                    [ev_Do req; ev_Close body']
              | (buf, None) =>
                  mkDiscovery ip (TrimSuffix buf LF) None [ev_Do req; ev_Close body']
              end
        end
  end.

(** The request of the record-update step, as handed to [hc.Do]. *)
Definition update_request (f : closure) (jsonIP : string) : Request :=
  let req := Clone (setRecordBaseReq f) in
  let req := set_Body req
               (io_NopCloser (strings_NewReader
                                (reqBodyStrPrefix f ++ jsonIP ++ reqBodyStrSuffix f))) in
  let req := set_GetBody req None in
  let h := Header_Set (header req) "Content-Type" "application/json" in
  let h := Header_Set h "Authorization" ("Bearer " ++ apiToken f) in
  reqDeco f (set_header req h).

(** The record-update step (the second [func() error] of the closure). *)
Definition update (f : closure) (hc : http_Client) (jsonIP : string)
    : option error * list event :=
  let req := update_request f jsonIP in
  let rt := hc req in
  match reply rt with
  | inr err =>
      (Some (wrapError "failed to get response from cloudflare api" (Some err)),
       [ev_Do req])
  | inl resp =>
      let req_Body := after_send (sent rt) (Body req) in
      (* io.Copy(io.Discard, req.Body), in both branches *)
      let '(_, _, derr) := io_Copy_Discard req_Body in
      if non_2xx (StatusCode resp) then
        (Some (errors_New (msg_unexpected_status ++ ": " ++ Itoa (StatusCode resp))),
         [ev_Do req;
          ev_log (LogAttrs LevelError msg_unexpected_status
                    [slog_Int "status_code" (StatusCode resp)])]
         ++ match derr with
            | Some e =>
                [ev_log (LogAttrs LevelError
                           "failed to read full non-success response body from cloudflare"
                           [errAttr (Some e)])]
            | None => []
            end
         ++ [ev_Close (resp_Body resp)])%list
      else
        (None,
         [ev_Do req]
         ++ match derr with
            | Some e =>
                [ev_log (LogAttrs LevelWarn
                           "failed to read full success response body from cloudflare"
                           [errAttr (Some e)])]
            | None => []
            end
         ++ [ev_Close (resp_Body resp)])%list
  end.

(** One call of the closure: the returned error, [oldIP] afterwards, and
    what was done. *)
Record tick : Type := mkTick
  { t_err : option error; t_oldIP : string; t_trace : list event }.

(** The closure returned by [newSyncFunc], called with the captured [oldIP]
    and the tick time [t] (in Unix nanoseconds). *)
Definition syncFunc (f : closure) (hc : http_Client) (oldIP : string) (t : Z)
    : tick :=
  let started := [ev_log (LogAttrs LevelInfo "sync running" [slog_Int64 "tick_time" t])] in
  let d := discover f hc in
  match d_err d with
  | Some err =>
      mkTick (Some (wrapError msg_determine_ip (Some err))) oldIP
        (started ++ d_trace d
         ++ [ev_log (LogAttrs LevelError msg_determine_ip [errAttr (Some err)])])%list
  | None =>
      let ip := d_ip d in
      if String.eqb ip oldIP then
        mkTick None oldIP
          (started ++ d_trace d
           ++ [ev_log (LogAttrs LevelInfo "same IP address" [slog_String "ip" ip])])%list
      else
        let changed :=
          [ev_log (LogAttrs LevelInfo "new IP address"
                     [slog_String "ip_old" oldIP; slog_String "ip_new" ip])] in
        match update f hc (d_jsonIP d) with
        | (Some err, tr) =>
            mkTick (Some (wrapError msg_verify_update (Some err))) oldIP
              (started ++ d_trace d ++ changed ++ tr
               ++ [ev_log (LogAttrs LevelError msg_verify_update [errAttr (Some err)])])%list
        | (None, tr) =>
            mkTick None ip (started ++ d_trace d ++ changed ++ tr)%list
        end
  end.

(** *** [run] *)

(** How the second [select] of an iteration ends: with the done channel,
    or with a tick of the ticker (its time, in Unix nanoseconds). *)
Inductive wakeup : Type := wake_done | wake_tick (t : Z).

(** What the outside does during one iteration of the loop of [run]: how
    the HTTP client answers, whether the done channel is closed when the
    first [select] looks at it, and how the second [select] ends. *)
Record iteration : Type := mkIteration
  { answers : http_Client; done_after_sync : bool; woken : wakeup }.

(** The surroundings of one call of [run]: [time.Now()], the message of
    [ctx.Err()] at the check before the loop ([None] for nil), and the
    iterations, in order. *)
Record surroundings : Type := mkSurroundings
  { time_Now : Z; ctx_Err : option string; script : list iteration }.

Inductive run_result : Type :=
| run_returned (err : option error) (trace : list event)
| run_panicked (v : error) (trace : list event)
| run_unmodelled
| run_in_loop (trace : list event).

Definition interval_text : string := "4h0m0s".

(** The [for] loop of [run] over the scripted iterations: [true] when a
    [return nil] was reached, [false] when the script ended first. *)
Fixpoint loop (f : closure) (its : list iteration) (oldIP : string)
    (consecutiveFailCount : Z) (tickTime : Z) : bool * list event :=
  match its with
  | [] => (false, [])
  | it :: rest =>
      let tk := syncFunc f (answers it) oldIP tickTime in
      let '(report, count) :=
        match t_err tk with
        | Some err =>
            ([ev_log (LogAttrs LevelError "sync fail"
                        [slog_Int "consecutive_fail_count" consecutiveFailCount;
                         errAttr (Some err)])],
             wrap64 (consecutiveFailCount + 1))
        | None => ([ev_log (LogAttrs LevelInfo "sync ok" [])], 0)
        end in
      if done_after_sync it then (true, t_trace tk ++ report)%list
      else
        match woken it with
        | wake_done =>
            (true, t_trace tk ++ report ++ [ev_CloseIdleConnections])%list
        | wake_tick t =>
            let '(returned, tr) := loop f rest (t_oldIP tk) count t in
            (returned, t_trace tk ++ report ++ [ev_CloseIdleConnections] ++ tr)%list
        end
  end.

(** [run(ctx, logger, cfg)].  The deferred calls run on every way out:
    the "service stopped" record (only once the recovering function is
    installed, and only on a normal return), then
    [hc.CloseIdleConnections()]. *)
Definition run (cfg : config) (w : surroundings) : run_result :=
  let init :=
    [ev_log (LogAttrs LevelInfo "service initializing"
               [slog_String "interval" interval_text])] in
  match newSyncFunc cfg run_reqDeco with
  | Err v => run_panicked v (init ++ [ev_CloseIdleConnections])
  | Unmodelled => run_unmodelled
  | Ok f =>
      match ctx_Err w with
      | Some reason =>
          run_returned None
            (init ++ [ev_log (LogAttrs LevelWarn "service start canceled"
                                [slog_String "reason" reason]);
                      ev_CloseIdleConnections])
      | None =>
          let starting :=
            [ev_log (LogAttrs LevelInfo "service starting"
                       [slog_String "interval" interval_text])] in
          let '(returned, tr) := loop f (script w) "" 0 (time_Now w) in
          if returned then
            run_returned None
              (init ++ starting ++ tr
               ++ [ev_log (LogAttrs LevelWarn "service stopped" []);
                   ev_CloseIdleConnections])
          else run_in_loop (init ++ starting ++ tr)
      end
  end.

(** The requests handed to [hc.Do] in a trace, in order. *)
Fixpoint network_calls (tr : list event) : list Request :=
  match tr with
  | [] => []
  | ev_Do req :: tr' => req :: network_calls tr'
  | _ :: tr' => network_calls tr'
  end.

(** The response bodies closed in a trace, each in the state it is in when
    [Close] is called. *)
Fixpoint closed_bodies (tr : list event) : list reader :=
  match tr with
  | [] => []
  | ev_Close body :: tr' => body :: closed_bodies tr'
  | _ :: tr' => closed_bodies tr'
  end.

(** The number of sync attempts in a trace: the "sync running" records. *)
Fixpoint sync_attempts (tr : list event) : nat :=
  match tr with
  | [] => O
  | ev_log (LogAttrs _ msg _) :: tr' =>
      ((if String.eqb msg "sync running" then 1 else 0) + sync_attempts tr')%nat
  | _ :: tr' => sync_attempts tr'
  end.

(** *** Notions used to state the properties of a tick *)

(** The request of the discovery step. *)
Definition discovery_request (f : closure) : Request :=
  reqDeco f (Clone (readIPBaseReq f)).

(** The discovery step finds [ip]: the transport yields a response, its
    status is in the 2xx range, its body reads to the end without error,
    and the trimmed body is an IP literal. *)
Definition discovers (f : closure) (hc : http_Client) (ip : string) : Prop :=
  exists resp,
    reply (hc (discovery_request f)) = inl resp
    /\ 200 <= StatusCode resp < 300
    /\ fails (resp_Body resp) = None
    /\ ip = strings_TrimSpace (unread (resp_Body resp))
    /\ net_ParseIP ip = true.

(** The update call with body content [jsonIP] is accepted: the transport
    yields a response with a status in the 2xx range. *)
Definition update_accepted (f : closure) (hc : http_Client) (jsonIP : string)
    : Prop :=
  exists resp,
    reply (hc (update_request f jsonIP)) = inl resp
    /\ 200 <= StatusCode resp < 300.

(** The closure [newSyncFunc] builds, written out. *)
Definition zones_path (s : string) : string := "/client/v4/zones/" ++ s.

Definition record_tail (zone record : string) : string :=
  zone ++ "/dns_records/" ++ record.

Definition checkip_request : Request :=
  mkRequest "GET"
    (mkURL "https" "" "checkip.amazonaws.com" "/" "" false false "" "")
    ∅ http_NoBody None "checkip.amazonaws.com".

Definition record_request (cfg : config) : Request :=
  let raw := zones_path (record_tail (PathEscape (ZoneID cfg)) (PathEscape (RecordID cfg))) in
  let path := zones_path (record_tail (ZoneID cfg) (RecordID cfg)) in
  mkRequest "PUT"
    (mkURL "https" "" "api.cloudflare.com" path
       (if String.eqb raw (escape path encodePath) then "" else raw)
       false false "" "")
    ∅ http_NoBody None "api.cloudflare.com".

Definition built_closure (cfg : config) (deco : Request -> Request) : closure :=
  mkClosure (ApiToken cfg)
    (body_head ++ json_Marshal (RecordName cfg) ++ body_mid)
    (body_ttl ++ Itoa (ttl cfg) ++ body_tail)
    checkip_request (record_request cfg) deco.

End WithLibraries.

(** The request body of the DNS provider API, as the interface describes it:
    [{"type":"A","name":<name>,"content":<ip>,"ttl":<n>,"proxied":false}],
    where [name_json] and [ip_json] are the JSON encodings of the record
    name and of the address. *)
Definition expected_body (name_json ip_json : string) (ttl : Z) : string :=
  "{" ++ qq "type" ++ ":" ++ qq "A" ++ ","
  ++ qq "name" ++ ":" ++ name_json ++ ","
  ++ qq "content" ++ ":" ++ ip_json ++ ","
  ++ qq "ttl" ++ ":" ++ Itoa ttl ++ ","
  ++ qq "proxied" ++ ":false}".

(** An iteration of [run] in which one of the two [select]s takes the done
    channel. *)
Definition cancelled (it : iteration) : bool :=
  done_after_sync it
  || match woken it with wake_done => true | wake_tick _ => false end.

End Sync.
Export Sync.

(* ===================================================================== *)
(** ** Sample inputs *)
(* ===================================================================== *)

(** Concrete library functions and inputs on which the definitions can be
    run.  The three functions are stand-ins good for ASCII text: dotted
    decimal IPv4 literals, ASCII white space, strings without a byte that
    JSON escapes. *)
Module Sample.

Definition is_space (c : ascii) : bool :=
  (byte_val c =? 32) || ((9 <=? byte_val c) && (byte_val c <=? 13)).

Fixpoint trim_left (s : string) : string :=
  match s with
  | EmptyString => EmptyString
  | String c s' => if is_space c then trim_left s' else s
  end.

Fixpoint reverse (s acc : string) : string :=
  match s with
  | EmptyString => acc
  | String c s' => reverse s' (String c acc)
  end.

Definition TrimSpace (s : string) : string :=
  reverse (trim_left (reverse (trim_left s) "")) "".

(** One decimal field of an IPv4 literal: 1 to 3 digits, no leading zero,
    at most 255. *)
Definition ipv4_field (s : string) : bool :=
  match atoi_digits s 0 with
  | Some n =>
      (0 <? String.length s)%nat && (String.length s <? 4)%nat && (n <=? 255)
      && negb (HasPrefix s "0" && (1 <? String.length s)%nat)
  | None => false
  end.

Fixpoint ipv4_fields (s field : string) (dots : nat) : bool :=
  match s with
  | EmptyString => ipv4_field (reverse field "") && (dots =? 3)%nat
  | String c s' =>
      if Ascii.eqb c "." then
        ipv4_field (reverse field "") && ipv4_fields s' "" (S dots)
      else ipv4_fields s' (String c field) dots
  end.

Definition ParseIP (s : string) : bool := ipv4_fields s "" 0.

Definition Marshal (s : string) : string := qq s.

Definition cfg : config :=
  mkConfig "zone 1" "record/2" "home.example.com" "secret" None 120 false.

Definition the_closure : closure := built_closure Marshal cfg run_reqDeco.

(** An HTTP client: [discovery] answers the GET, [provider] the PUT; the
    transport reads the whole request body. *)
Definition client (discovery provider : Response + error) : http_Client :=
  fun req =>
    mkRoundTrip (String.length (unread (Body req)))
      (if String.eqb (Method req) "GET" then discovery else provider).

Definition ok_body (status : Z) (text : string) : Response + error :=
  inl (mkResponse status (mkReader text None)).

(** A response body whose stream breaks after [text]. *)
Definition broken_body (status : Z) (text : string) : Response + error :=
  inl (mkResponse status (mkReader text (Some (foreign "connection reset by peer")))).

Definition LFs (s : string) : string := s ++ LF.

(** Surroundings of [run]: a first tick, then a second one after which the
    wait ends with the done channel; and the same with the context already
    cancelled before the loop. *)
Definition two_ticks : surroundings :=
  mkSurroundings 0 None
    [mkIteration (client (ok_body 200 (LFs "203.0.113.7")) (ok_body 200 "{}"))
       false (wake_tick 14400);
     mkIteration (client (ok_body 200 (LFs "203.0.113.7")) (ok_body 200 "{}"))
       false wake_done;
     mkIteration (client (ok_body 200 (LFs "203.0.113.9")) (ok_body 200 "{}"))
       false (wake_tick 28800)].

Definition cancelled_at_start : surroundings :=
  mkSurroundings 0 (Some "context canceled") (script two_ticks).

End Sample.

(* ===================================================================== *)
(** ** Start-up: [newConfig], [Run], [main] *)
(* ===================================================================== *)

Module Startup.

(** The file system as the loader sees it: what [os.Open] and the JSON
    decoder make of the file at a path. *)
Abbreviation files := (string -> cfg_file).

Definition is_absent (file : cfg_file) : bool :=
  match file with file_absent => true | _ => false end.

(** The number a sequence of decimal digits denotes, read from the left
    with [acc] as the value so far. *)
Fixpoint uint_value (d : Decimal.uint) (acc : Z) : Z :=
  match d with
  | Decimal.Nil => acc
  | Decimal.D0 l => uint_value l (acc * 10 + 0)
  | Decimal.D1 l => uint_value l (acc * 10 + 1)
  | Decimal.D2 l => uint_value l (acc * 10 + 2)
  | Decimal.D3 l => uint_value l (acc * 10 + 3)
  | Decimal.D4 l => uint_value l (acc * 10 + 4)
  | Decimal.D5 l => uint_value l (acc * 10 + 5)
  | Decimal.D6 l => uint_value l (acc * 10 + 6)
  | Decimal.D7 l => uint_value l (acc * 10 + 7)
  | Decimal.D8 l => uint_value l (acc * 10 + 8)
  | Decimal.D9 l => uint_value l (acc * 10 + 9)
  end.

(** The TTL [load] stores when CLOUDFLARE_RECORD_TTL is not used: the one
    of the file, or 120. *)
Definition file_ttl (r : config) : Z :=
  match TTLPtr r with Some p => p | None => 120 end.

(** No variable of the loader is set to a non-empty value. *)
Definition no_variable (env : environ) : Prop :=
  env_nonempty env "CLOUDFLARE_ZONE_ID" = None
  /\ env_nonempty env "CLOUDFLARE_RECORD_ID" = None
  /\ env_nonempty env "CLOUDFLARE_RECORD_NAME" = None
  /\ env_nonempty env "CLOUDFLARE_RECORD_TTL" = None
  /\ env_nonempty env "CLOUDFLARE_API_TOKEN" = None.

(** The record the deferred function of [validate] writes. *)
Definition validation_failed_record (e : error) : Record_ :=
  LogAttrs LevelError "configuration validation failed"
    [slog_String "note" "no config file found"; errAttr (Some e)].

Definition msg_create_logger : string := "failed to create logger".
Definition msg_load_runtime_config : string := "failed to load runtime config".

(** A trace put in front of the trace of a result. *)
Definition after_trace (pre : list event) (r : run_result) : run_result :=
  match r with
  | run_returned err tr => run_returned err (pre ++ tr)
  | run_panicked v tr => run_panicked v (pre ++ tr)
  | run_unmodelled => run_unmodelled
  | run_in_loop tr => run_in_loop (pre ++ tr)
  end.

Section WithLibraries.

(** [path_Join dir name] is [path.Join(dir, name)]; the other three are
    the library functions of the sync loop. *)
Variable path_Join : string -> string -> string.
Variable net_ParseIP : string -> bool.
Variable strings_TrimSpace : string -> string.
Variable json_Marshal : string -> string.

(** The path [newConfig] hands to [Load]. *)
Definition cfgFile_of (env : environ) : string :=
  let stateDir :=
    match env_nonempty env "CONFIG_DIR" with Some v => v | None => "" end in
  if negb (String.eqb stateDir "") && negb (String.eqb stateDir ".")
  then path_Join stateDir "config.json"
  else "config.json".

(** [newConfig(ctx, logger)]: [v] and [result] start as zero values, [Load]
    runs on [v], and [result = v] is reached only when [Load] returned nil.
    The third component is what was logged. *)
Definition newConfig (fs : files) (env : environ)
    : config * option error * list Record_ :=
  let o := Load config_zero (fs (cfgFile_of env)) env in
  match returned o with
  | Some err => (config_zero, Some err, logged o)
  | None => (receiver o, None, logged o)
  end.

(** What the process runs in: whether [newLogger] fails, the environment,
    the file system, and the surroundings of [run]. *)
Record host : Type := mkHost
  { newLogger_err : option error;
    host_env : environ;
    host_files : files;
    host_run : surroundings }.

(** [Run(ctx)].  [rootContext] derives the context whose cancellation the
    surroundings of [run] describe. *)
Definition Run (h : host) : run_result :=
  match newLogger_err h with
  | Some err =>
      run_returned (Some (wrapError msg_create_logger (Some err))) []
  | None =>
      let loading := [ev_log (LogAttrs LevelInfo "loading config" [])] in
      match newConfig (host_files h) (host_env h) with
      | (_, Some err, logs) =>
          run_returned (Some (wrapError msg_load_runtime_config (Some err)))
            (loading ++ List.map ev_log logs
             ++ [ev_log (LogAttrs LevelError msg_load_runtime_config
                           [errAttr (Some err)])])
      | (cfg, None, logs) =>
          after_trace (loading ++ List.map ev_log logs)
            (run net_ParseIP strings_TrimSpace json_Marshal cfg (host_run h))
      end
  end.

(** [main]: [panic(err)] when [Run] returns an error. *)
Definition main (h : host) : run_result :=
  match Run h with
  | run_returned (Some err) tr => run_panicked err tr
  | r => r
  end.

(** The calls of the closure that the loop of [run] makes over a script, in
    order: each call gets the [oldIP] the call before left and the tick time
    the loop holds at that point, and no call follows an iteration in which
    one of the two [select]s takes the done channel. *)
Fixpoint ticks (f : closure) (its : list iteration) (oldIP : string)
    (tickTime : Z) : list tick :=
  match its with
  | [] => []
  | it :: rest =>
      let tk :=
        syncFunc net_ParseIP strings_TrimSpace json_Marshal
          f (answers it) oldIP tickTime in
      tk :: (if done_after_sync it then []
             else
               match woken it with
               | wake_done => []
               | wake_tick t => ticks f rest (t_oldIP tk) t
               end)
  end.

(** The calls of the closure that one call of [run] makes: none when
    [newSyncFunc] does not return or the context is cancelled on entry, and
    else those of the loop, which starts with an empty [oldIP] at
    [time.Now()]. *)
Definition run_ticks (cfg : config) (w : surroundings) : list tick :=
  match newSyncFunc json_Marshal cfg run_reqDeco with
  | Ok f =>
      match ctx_Err w with
      | Some _ => []
      | None => ticks f (script w) "" (time_Now w)
      end
  | _ => []
  end.

End WithLibraries.

(** *** Notions used to state the properties of a run *)

(** What a result did before it ended (nothing is known of a result
    outside the model). *)
Definition result_trace (r : run_result) : list event :=
  match r with
  | run_returned _ tr | run_panicked _ tr | run_in_loop tr => tr
  | run_unmodelled => []
  end.

(** The outcome records of a trace, in order: [None] for "sync ok",
    [Some n] for "sync fail" with [consecutive_fail_count] [n]. *)
Fixpoint reports (tr : list event) : list (option Z) :=
  match tr with
  | [] => []
  | ev_log (LogAttrs _ msg attrs) :: tr' =>
      if String.eqb msg "sync ok" then None :: reports tr'
      else if String.eqb msg "sync fail" then
        match attrs with
        | slog_Int _ n :: _ => Some n :: reports tr'
        | _ => reports tr'
        end
      else reports tr'
  | _ :: tr' => reports tr'
  end.

(** The number of failed calls at the head of a list of returned errors. *)
Fixpoint leading_failures (errs : list (option error)) : nat :=
  match errs with
  | Some _ :: rest => S (leading_failures rest)
  | _ => O
  end.

(** The number of failed calls at the end of a list of returned errors:
    the failures since the last call that returned nil, or since the start
    when there is none. *)
Definition failures_since_success (errs : list (option error)) : nat :=
  leading_failures (rev errs).

(** The outcome record expected after call number [i] (from 0) of a run
    whose calls returned [errs], [err] being what call [i] returned:
    "sync ok" for nil, and else "sync fail" with the number of failed calls
    since the last successful one among the [i] calls before, as a 64-bit
    [int]. *)
Definition expected_report (errs : list (option error)) (i : nat)
    (err : option error) : option Z :=
  match err with
  | None => None
  | Some _ => Some (wrap64 (Z.of_nat (failures_since_success (firstn i errs))))
  end.

(** The tick times of the "sync running" records of a trace, in order. *)
Fixpoint tick_times (tr : list event) : list Z :=
  match tr with
  | [] => []
  | ev_log (LogAttrs _ msg (slog_Int64 _ t :: _)) :: tr' =>
      if String.eqb msg "sync running" then t :: tick_times tr'
      else tick_times tr'
  | _ :: tr' => tick_times tr'
  end.

(** The times the second [select] of each iteration delivers. *)
Fixpoint ticker_times (its : list iteration) : list Z :=
  match its with
  | [] => []
  | it :: its' =>
      match woken it with
      | wake_tick t => t :: ticker_times its'
      | wake_done => ticker_times its'
      end
  end.

(** The number of requests of a list that the client answers with a
    response (and not with a transport error). *)
Fixpoint answered (hc : http_Client) (reqs : list Request) : nat :=
  match reqs with
  | [] => O
  | req :: reqs' =>
      ((match reply (hc req) with inl _ => 1 | inr _ => 0 end)
       + answered hc reqs')%nat
  end.

(** *** Sample hosts *)

(** A stand-in for [path.Join] on two clean, non-empty elements. *)
Definition sample_Join (dir name : string) : string := dir ++ "/" ++ name.

(** A file system with one config file, at [/etc/dns-sync/config.json]. *)
Definition sample_files (good : config) : files :=
  fun path =>
    if String.eqb path "/etc/dns-sync/config.json" then file_decoded good
    else file_absent.

(** A host whose logger is built and whose CONFIG_DIR points at the config
    file, and the same host without the variable. *)
Definition sample_host (env : environ) : host :=
  mkHost None env
    (sample_files (from_json "zone 1" "record/2" "home.example.com" "secret" None))
    Sample.two_ticks.

Definition env_with_dir : environ := {[ "CONFIG_DIR" := "/etc/dns-sync" ]}.

(** Two clients: one served by both services, one whose discovery service
    answers 500. *)
Definition hc_ok : http_Client :=
  Sample.client (Sample.ok_body 200 (Sample.LFs "203.0.113.7")) (Sample.ok_body 200 "{}").
Definition hc_busy : http_Client :=
  Sample.client (Sample.ok_body 500 "busy") (Sample.ok_body 200 "{}").

(** A client whose discovery service answers with another address. *)
Definition hc_moved : http_Client :=
  Sample.client (Sample.ok_body 200 (Sample.LFs "203.0.113.8")) (Sample.ok_body 200 "{}").

(** A script of five iterations, the last one cancelled: two failed
    discoveries, a first address, another failed discovery, and a changed
    address. *)
Definition five_ticks : surroundings :=
  mkSurroundings 7 None
    [mkIteration hc_busy false (wake_tick 100);
     mkIteration hc_busy false (wake_tick 200);
     mkIteration hc_ok false (wake_tick 300);
     mkIteration hc_busy false (wake_tick 400);
     mkIteration hc_moved false wake_done].

(** A script of two iterations, none cancelled. *)
Definition two_waits : surroundings :=
  mkSurroundings 7 None
    [mkIteration (Sample.client (Sample.ok_body 500 "busy") (Sample.ok_body 200 "{}"))
       false (wake_tick 14400);
     mkIteration (Sample.client (Sample.ok_body 500 "busy") (Sample.ok_body 200 "{}"))
       false (wake_tick 28800)].

End Startup.
Export Startup.

(* ===================================================================== *)
(** ** Facts on strings *)
(* ===================================================================== *)

Module StringFacts.

Lemma length_app s t :
  String.length (s ++ t) = (String.length s + String.length t)%nat.
Proof. induction s as [|c s IH]; simpl; [reflexivity | now rewrite IH]. Qed.

Lemma take_app s t : take (String.length s) (s ++ t) = s.
Proof. induction s as [|c s IH]; simpl; [now destruct t | now rewrite IH]. Qed.

Lemma drop_app s t : drop (String.length s) (s ++ t) = t.
Proof. induction s as [|c s IH]; simpl; auto. Qed.

(** [strings.TrimSuffix(s + t, t) == s]: what the program relies on when it
    removes the line feed written by [Encode]. *)
Lemma TrimSuffix_app s t : TrimSuffix (s ++ t) t = s.
Proof.
  unfold TrimSuffix, HasSuffix. rewrite length_app.
  replace (String.length s + String.length t - String.length t)%nat
    with (String.length s) by lia.
  rewrite drop_app, take_app, String.eqb_refl.
  destruct (Nat.leb_spec (String.length t) (String.length s + String.length t));
    [reflexivity | lia].
Qed.

Lemma app_assoc s t u : (s ++ t) ++ u = s ++ (t ++ u).
Proof.
  induction s as [|c s IH]; [reflexivity|].
  change (String c ((s ++ t) ++ u) = String c (s ++ t ++ u)). now rewrite IH.
Qed.

End StringFacts.
Import StringFacts.


(* ===================================================================== *)
(** ** Properties of the configuration loader *)
(* ===================================================================== *)

Module ConfigProps.

Ltac fill_cases :=
  unfold merged_ids, fill_from_env;
  repeat match goal with
         | |- context [String.eqb ?a ?b] => destruct (String.eqb_spec a b)
         | |- context [env_nonempty ?e ?k] => destruct (env_nonempty e k)
         end; cbn in *; try congruence; auto.

(** Every way out of [load] that returns an error returns the receiver it
    was given; the one way out that returns nil assigns the merged value. *)
Lemma load_inv c file env :
  (exists e, returned (load c file env) = Some e
             /\ receiver (load c file env) = c)
  \/ (exists result noCfg r,
        open_and_decode file = (result, noCfg, None)
        /\ load_ttl env (merged_ids env result) = inr r
        /\ returned (load c file env) = None
        /\ receiver (load c file env)
           = set_noCfgFile
               (fill_from_env env "CLOUDFLARE_API_TOKEN" ApiToken set_ApiToken r)
               noCfg).
Proof.
  unfold load.
  destruct (open_and_decode file) as [[result noCfg] [e|]] eqn:Hfile; cbn.
  { left; eauto. }
  fold (merged_ids env result).
  destruct (load_ttl env (merged_ids env result)) as [[e logs]|r] eqn:Httl; cbn.
  { left; eauto. }
  destruct (isEmpty _); [destruct noCfg; [left; eauto|] |]; cbn.
  - destruct (isEmpty result); cbn; [left; eauto|].
    right; exists result, false, r; auto.
  - right; exists result, noCfg, r; auto.
Qed.

Lemma load_ttl_inv env result r :
  load_ttl env result = inr r ->
  r = set_ttl result (ttl r)
  /\ match env_nonempty env "CLOUDFLARE_RECORD_TTL" with
     | Some s => Atoi s = (ttl r, None) /\ Itoa (ttl r) = s
     | None => ttl r = match TTLPtr result with Some p => p | None => 120 end
     end.
Proof.
  unfold load_ttl.
  destruct (env_nonempty env "CLOUDFLARE_RECORD_TTL") as [s|].
  - destruct (Atoi s) as [v [e|]]; cbn; [discriminate|].
    destruct (String.eqb_spec (Itoa v) s); cbn; [|discriminate].
    intros [= <-]; cbn; auto.
  - destruct (TTLPtr result); intros [= <-]; cbn; auto.
Qed.

(** The TTL step lets a set, non-empty variable through exactly when it is
    the decimal form [strconv.Itoa] writes for the integer parsed. *)
Lemma load_ttl_accepts env result s :
  env_nonempty env "CLOUDFLARE_RECORD_TTL" = Some s ->
  (exists r, load_ttl env result = inr r)
  <-> (exists v, Atoi s = (v, None) /\ Itoa v = s).
Proof.
  intros Hs; split.
  - intros [r Hr]. apply load_ttl_inv in Hr as [_ Hr]. rewrite Hs in Hr. eauto.
  - intros [v [Ha Hi]]. unfold load_ttl. rewrite Hs, Ha; cbn.
    rewrite Hi, String.eqb_refl; cbn. eauto.
Qed.

End ConfigProps.
Import ConfigProps.

Section ConfigProperties.

Implicit Types (c r : config) (file : cfg_file) (env : environ).

(** C10. [load] is atomic: whenever it returns an error (config file that
    cannot be opened, malformed JSON, TTL variable that does not parse, no
    configuration at all), the receiver holds the value it held on entry. *)
Theorem load_error_keeps_receiver c file env e :
  returned (load c file env) = Some e ->
  receiver (load c file env) = c.
Proof.
  intros He.
  destruct (load_inv c file env) as [(e' & _ & Hc) | (? & ? & ? & _ & _ & Hn & _)].
  - exact Hc.
  - congruence.
Qed.


Lemma load_error_keeps_receiver_witness :
  let c := mkConfig "zone" "record" "name" "token" (Some 300) 300 false in
  let env : environ := {[ "CLOUDFLARE_RECORD_TTL" := "5m" ]} in
  returned (load c file_absent env)
  = Some (wrapError msg_parse_ttl (Some (NumError "Atoi" "5m" ErrSyntax)))
  /\ receiver (load c file_absent env) = c.
Proof.
  split; [vm_compute; reflexivity|].
  apply (load_error_keeps_receiver _ file_absent _
           (wrapError msg_parse_ttl (Some (NumError "Atoi" "5m" ErrSyntax)))).
  vm_compute; reflexivity.
Defined.

(** C2, on the code.  With the config file [{}] (or no config file) and an
    empty environment, [load] returns nil: the default TTL 120 is stored in
    [result.ttl] before [result.isEmpty()] is evaluated, so that test is
    false and the "no configuration" return is skipped.  [Load] then fails
    in [validate], with the API-token message. *)
Theorem empty_file_no_env_is_not_no_configuration :
  let empty_object := file_decoded (from_json "" "" "" "" None) in
  returned (load config_zero empty_object ∅) = None
  /\ receiver (load config_zero empty_object ∅)
     = mkConfig "" "" "" "" None 120 false
  /\ returned (Load config_zero empty_object ∅) = Some err_api_token
  /\ returned (load config_zero file_absent ∅) = None
  /\ returned (Load config_zero file_absent ∅) = Some err_api_token.
Proof. vm_compute. repeat split. Qed.

(** The "no configuration" error can only be returned when
    CLOUDFLARE_RECORD_TTL is the string [0]: in every other case the TTL
    step has made [result.ttl] non-zero, or the file has set a field. *)
Lemma no_configuration_needs_zero_ttl c file env :
  returned (load c file env) = Some (errors_New msg_no_configuration) ->
  env_nonempty env "CLOUDFLARE_RECORD_TTL" = Some "0".
Proof.
  unfold load.
  destruct (open_and_decode file) as [[result noCfg] [e|]]; cbn; [discriminate|].
  fold (merged_ids env result).
  destruct (load_ttl env (merged_ids env result)) as [[e logs]|r] eqn:Httl; cbn.
  { unfold load_ttl in Httl.
    destruct (env_nonempty env "CLOUDFLARE_RECORD_TTL") as [s|].
    - destruct (Atoi s) as [v err].
      destruct (not_nil err || negb (String.eqb (Itoa v) s)); [|discriminate].
      injection Httl as <- _. discriminate.
    - destruct (TTLPtr _); discriminate. }
  apply load_ttl_inv in Httl as [Hr Hrttl].
  destruct (isEmpty _) eqn:Hempty.
  2:{ destruct noCfg; discriminate. }
  intros _.
  apply bool_decide_eq_true in Hempty.
  assert (Httl0 : ttl r = 0).
  { apply (f_equal ttl) in Hempty. revert Hempty. fill_cases. }
  assert (Hptr : TTLPtr (merged_ids env result) = None).
  { apply (f_equal TTLPtr) in Hempty. rewrite Hr in Hempty.
    revert Hempty. fill_cases. }
  rewrite Hptr in Hrttl.
  destruct (env_nonempty env "CLOUDFLARE_RECORD_TTL") as [s|].
  - destruct Hrttl as [_ Hs]. rewrite Httl0 in Hs.
    rewrite <- Hs. reflexivity.
  - lia.
Qed.

(** The strict TTL parse at work: a sign, a leading zero, a separator or a
    space makes [load] fail ([Atoi] accepts the first two, and the
    comparison with [Itoa] rejects them, wrapping the nil error); the
    shortest decimal form is accepted. *)
Example strict_ttl_examples :
  let try (s : string) :=
    returned (load config_zero file_absent {[ "CLOUDFLARE_RECORD_TTL" := s ]}) in
  try "+5" = Some (wrapError msg_parse_ttl None)
  /\ try "007" = Some (wrapError msg_parse_ttl None)
  /\ try "1_000"
     = Some (wrapError msg_parse_ttl (Some (NumError "Atoi" "1_000" ErrSyntax)))
  /\ try " 5"
     = Some (wrapError msg_parse_ttl (Some (NumError "Atoi" " 5" ErrSyntax)))
  /\ try "99999999999999999999"
     = Some (wrapError msg_parse_ttl
               (Some (NumError "Atoi" "99999999999999999999" ErrRange)))
  /\ try "300" = None.
Proof. vm_compute. repeat split. Qed.

(** C3, as stated, fails: a zone id given by the file is kept although
    CLOUDFLARE_ZONE_ID is set to another, non-empty value. *)
Lemma env_does_not_override_file_zone_id :
  let file := file_decoded (from_json "zone-of-file" "record" "name" "token" None) in
  let env : environ := {[ "CLOUDFLARE_ZONE_ID" := "zone-of-env" ]} in
  env_nonempty env "CLOUDFLARE_ZONE_ID" = Some "zone-of-env"
  /\ returned (load config_zero file env) = None
  /\ ZoneID (receiver (load config_zero file env)) = "zone-of-file"
  /\ ZoneID (receiver (load config_zero file env)) <> "zone-of-env".
Proof. vm_compute. repeat split. discriminate. Qed.

(** C3, amended.  After a successful [load] of a decoded file [r]:
    zone id, record id, record name and API token are the file's value when
    that is not empty, and the variable's value only when the file's is
    empty; the TTL is the variable's value whenever the variable is set and
    not empty, whatever the file says, and else the file's value (120 when
    the file has none). *)
Theorem merge_priority c r env :
  returned (load c (file_decoded r) env) = None ->
  let m := receiver (load c (file_decoded r) env) in
  file_then_env env "CLOUDFLARE_ZONE_ID" (ZoneID r) (ZoneID m)
  /\ file_then_env env "CLOUDFLARE_RECORD_ID" (RecordID r) (RecordID m)
  /\ file_then_env env "CLOUDFLARE_RECORD_NAME" (RecordName r) (RecordName m)
  /\ file_then_env env "CLOUDFLARE_API_TOKEN" (ApiToken r) (ApiToken m)
  /\ (forall s, env_nonempty env "CLOUDFLARE_RECORD_TTL" = Some s ->
      Atoi s = (ttl m, None) /\ Itoa (ttl m) = s)
  /\ (env_nonempty env "CLOUDFLARE_RECORD_TTL" = None ->
      ttl m = match TTLPtr r with Some p => p | None => 120 end).
Proof.
  intros Hok m.
  destruct (load_inv c (file_decoded r) env)
    as [(e & He & _) | (result & noCfg & r' & Hfile & Httl & _ & Hm)];
    [congruence|].
  cbn in Hfile. injection Hfile as <- <-.
  apply load_ttl_inv in Httl as [Hr' Hrttl].
  subst m. rewrite Hm, Hr'. clear Hm Hok.
  assert (HT : TTLPtr (merged_ids env r) = TTLPtr r) by fill_cases.
  rewrite HT in Hrttl.
  unfold file_then_env; cbn.
  split; [|split; [|split; [|split; [|split]]]].
  1-4: split; [intros Hne | intros He v Hv; revert He Hv]; fill_cases.
  - intros s Hs. rewrite Hs in Hrttl. revert Hrttl. fill_cases.
  - intros Hs. rewrite Hs in Hrttl. revert Hrttl. fill_cases.
Qed.


Lemma merge_priority_witness :
  let r := from_json "zone-of-file" "" "name" "token" (Some 300) in
  let env : environ :=
    {[ "CLOUDFLARE_ZONE_ID" := "zone-of-env";
       "CLOUDFLARE_RECORD_ID" := "record-of-env";
       "CLOUDFLARE_RECORD_TTL" := "60" ]} in
  let m := receiver (load config_zero (file_decoded r) env) in
  returned (load config_zero (file_decoded r) env) = None
  /\ m = mkConfig "zone-of-file" "record-of-env" "name" "token" (Some 300) 60 false
  /\ file_then_env env "CLOUDFLARE_ZONE_ID" (ZoneID r) (ZoneID m).
Proof.
  split; [vm_compute; reflexivity|]. split; [vm_compute; reflexivity|].
  apply (merge_priority config_zero
           (from_json "zone-of-file" "" "name" "token" (Some 300))
           {[ "CLOUDFLARE_ZONE_ID" := "zone-of-env";
              "CLOUDFLARE_RECORD_ID" := "record-of-env";
              "CLOUDFLARE_RECORD_TTL" := "60" ]}).
  vm_compute; reflexivity.
Defined.

Lemma validate_ttl_check c :
  strings_present c ->
  returned (validate c) = if ttl c <? 1 then Some err_ttl else None.
Proof.
  intros (Ht & Hz & Hr & Hn). unfold validate, validate_checks; cbn.
  destruct (String.eqb_spec (ApiToken c) ""); [tauto|].
  destruct (String.eqb_spec (ZoneID c) ""); [tauto|].
  destruct (String.eqb_spec (RecordID c) ""); [tauto|].
  destruct (String.eqb_spec (RecordName c) ""); [tauto|].
  reflexivity.
Qed.

Lemma validate_rejects_small_ttl c :
  ttl c < 1 -> exists e, returned (validate c) = Some e.
Proof.
  intros Hlt. unfold validate, validate_checks; cbn.
  repeat match goal with
         | |- context [String.eqb ?a ?b] => destruct (String.eqb a b); eauto
         end.
  destruct (Z.ltb_spec (ttl c) 1); [eauto | lia].
Qed.

Lemma validate_ttl_error_inv c :
  returned (validate c) = Some err_ttl -> strings_present c.
Proof.
  unfold validate, validate_checks, strings_present; cbn.
  destruct (String.eqb_spec (ApiToken c) ""); [discriminate|].
  destruct (String.eqb_spec (ZoneID c) ""); [discriminate|].
  destruct (String.eqb_spec (RecordID c) ""); [discriminate|].
  destruct (String.eqb_spec (RecordName c) ""); [discriminate|].
  auto.
Qed.

Lemma validate_missing_string c :
  ~ strings_present c ->
  In (returned (validate c))
    [Some err_api_token; Some err_zone_id;
     Some err_record_id; Some err_record_name].
Proof.
  intros Hn. unfold validate, validate_checks; cbn.
  destruct (String.eqb_spec (ApiToken c) ""); [now left|].
  destruct (String.eqb_spec (ZoneID c) ""); [now right; left|].
  destruct (String.eqb_spec (RecordID c) ""); [now right; right; left|].
  destruct (String.eqb_spec (RecordName c) ""); [now right; right; right; left|].
  exfalso. apply Hn. repeat split; assumption.
Qed.




End ConfigProperties.

(* ===================================================================== *)
(** ** The two request templates are always built *)
(* ===================================================================== *)

Module URLFacts.

Ltac each_byte c := destruct c as [[] [] [] [] [] [] [] []].

Lemma escape_cons c s mode :
  escape (String c s) mode = escape (String c "") mode ++ escape s mode.
Proof. simpl. destruct (shouldEscape c mode); reflexivity. Qed.

(** One escaped byte holds no control byte, no [#] and no [?]. *)
Lemma escaped_byte_clean c :
  let e := escape (String c "") encodePathSegment in
  stringContainsCTLByte e = false
  /\ IndexByte e "#" = -1
  /\ IndexByte e "?" = -1
  /\ CountByte e "?" = 0.
Proof. each_byte c; vm_compute; auto. Qed.

(** An escaped byte is written with two hexadecimal digits that stand for
    it; a byte left alone is not the percent sign. *)
Lemma escaped_byte_digits c :
  (if shouldEscape c encodePathSegment then
     let h := hex_at (Z.shiftr (byte_val c) 4) in
     let l := hex_at (Z.land (byte_val c) 15) in
     ishex h && ishex l && Ascii.eqb (unhex2 h l) c
   else negb (is_byte c "%")) = true.
Proof. each_byte c; vm_compute; reflexivity. Qed.

Lemma unescape_percent h l rest :
  ishex h = true -> ishex l = true ->
  unescape (String "%" (String h (String l rest))) encodePath
  = match unescape rest encodePath with
    | inl e => inl e
    | inr t => inr (String (unhex2 h l) t)
    end.
Proof.
  intros Hh Hl. cbn [unescape].
  change (is_byte "%" "%") with true. cbv iota. rewrite Hh, Hl.
  reflexivity.
Qed.

Lemma unescape_plain c rest :
  is_byte c "%" = false ->
  unescape (String c rest) encodePath
  = match unescape rest encodePath with
    | inl e => inl e
    | inr t => inr (String c t)
    end.
Proof. intros Hc. cbn [unescape]. rewrite Hc. reflexivity. Qed.

(** Unescaping undoes the escaping of one byte, whatever follows. *)
Lemma unescape_escaped_byte c rest :
  unescape (escape (String c "") encodePathSegment ++ rest) encodePath
  = match unescape rest encodePath with
    | inl e => inl e
    | inr t => inr (String c t)
    end.
Proof.
  pose proof (escaped_byte_digits c) as H.
  cbn [escape]. destruct (shouldEscape c encodePathSegment).
  - cbv zeta in H. apply andb_prop in H as [H Hc]. apply andb_prop in H as [Hh Hl].
    apply Ascii.eqb_eq in Hc.
    change (unescape (String "%" (String (hex_at (Z.shiftr (byte_val c) 4))
              (String (hex_at (Z.land (byte_val c) 15)) rest))) encodePath = 
            match unescape rest encodePath with
            | inl e => inl e
            | inr t => inr (String c t)
            end).
    rewrite unescape_percent by assumption. rewrite Hc. reflexivity.
  - apply negb_true_iff in H.
    change (unescape (String c rest) encodePath = 
            match unescape rest encodePath with
            | inl e => inl e
            | inr t => inr (String c t)
            end).
    apply unescape_plain. exact H.
Qed.

Lemma CTL_app a b :
  stringContainsCTLByte (a ++ b)
  = stringContainsCTLByte a || stringContainsCTLByte b.
Proof.
  induction a as [|c a IH]; [reflexivity|].
  change (String c a ++ b) with (String c (a ++ b)).
  simpl. rewrite IH. now rewrite !orb_assoc.
Qed.

Lemma IndexByte_ge s c : -1 <= IndexByte s c.
Proof.
  induction s as [|a s IH]; simpl; [lia|].
  destruct (Ascii.eqb a c); [lia|].
  destruct (Z.ltb_spec (IndexByte s c) 0); lia.
Qed.

Lemma IndexByte_app_none a b c :
  IndexByte a c = -1 -> IndexByte b c = -1 -> IndexByte (a ++ b) c = -1.
Proof.
  intros Ha Hb. induction a as [|x a IH]; [exact Hb|].
  change (String x a ++ b) with (String x (a ++ b)).
  simpl in Ha |- *. destruct (Ascii.eqb x c); [discriminate|].
  pose proof (IndexByte_ge a c).
  destruct (Z.ltb_spec (IndexByte a c) 0); [|lia].
  rewrite IH by lia. reflexivity.
Qed.

Lemma CountByte_app a b c : CountByte (a ++ b) c = CountByte a c + CountByte b c.
Proof.
  induction a as [|x a IH]; [reflexivity|].
  change (String x a ++ b) with (String x (a ++ b)).
  simpl. rewrite IH. lia.
Qed.

(** [url.PathEscape] never yields a control byte, a [#] or a [?]. *)
Lemma PathEscape_clean s :
  stringContainsCTLByte (PathEscape s) = false
  /\ IndexByte (PathEscape s) "#" = -1
  /\ IndexByte (PathEscape s) "?" = -1
  /\ CountByte (PathEscape s) "?" = 0.
Proof.
  unfold PathEscape. induction s as [|c s (IH1 & IH2 & IH3 & IH4)].
  - vm_compute; auto.
  - rewrite escape_cons.
    destruct (escaped_byte_clean c) as (H1 & H2 & H3 & H4).
    rewrite CTL_app, CountByte_app, H1, H4, IH1, IH4.
    repeat split; try reflexivity; apply IndexByte_app_none; assumption.
Qed.

(** [unescape(PathEscape(s) + rest)] is [s] followed by [unescape(rest)]:
    the path-segment escaping is undone by the path unescaping. *)
Lemma unescape_PathEscape_app s rest :
  unescape (PathEscape s ++ rest) encodePath
  = match unescape rest encodePath with
    | inl e => inl e
    | inr t => inr (s ++ t)
    end.
Proof.
  unfold PathEscape. induction s as [|c s IH].
  - change (escape "" encodePathSegment ++ rest) with rest.
    destruct (unescape rest encodePath); reflexivity.
  - rewrite escape_cons, StringFacts.app_assoc, unescape_escaped_byte, IH.
    destruct (unescape rest encodePath); reflexivity.
Qed.


Lemma unescape_plain_app p rest :
  no_percent p = true ->
  unescape (p ++ rest) encodePath
  = match unescape rest encodePath with
    | inl e => inl e
    | inr t => inr (p ++ t)
    end.
Proof.
  induction p as [|c p IH]; intros Hp.
  - change ("" ++ rest) with rest. destruct (unescape rest encodePath); reflexivity.
  - simpl in Hp. apply andb_prop in Hp as [Hc Hp]. apply negb_true_iff in Hc.
    change (String c p ++ rest) with (String c (p ++ rest)).
    rewrite unescape_plain by assumption. rewrite IH by assumption.
    destruct (unescape rest encodePath); reflexivity.
Qed.

Lemma app_nil_r s : s ++ "" = s.
Proof.
  induction s as [|c s IH]; [reflexivity|].
  change (String c (s ++ "") = String c s). now rewrite IH.
Qed.

Lemma unescape_PathEscape s : unescape (PathEscape s) encodePath = inr s.
Proof.
  rewrite <- (app_nil_r (PathEscape s)), unescape_PathEscape_app.
  change (unescape "" encodePath) with (@inr url_err string "").
  cbv beta iota. now rewrite app_nil_r.
Qed.

(** [url.parse] on [https://api.cloudflare.com/client/v4/zones/] followed
    by a tail that has no control byte and no [?], and that unescapes. *)
Section ParseZoneURL.

Variables (tail decoded : string).
Hypothesis tail_no_ctl : stringContainsCTLByte tail = false.
Hypothesis tail_no_query : IndexByte tail "?" = -1.
Hypothesis tail_no_query_count : CountByte tail "?" = 0.
Hypothesis tail_unescapes : unescape tail encodePath = inr decoded.

Lemma parse_zones_url :
  parse ("https://api.cloudflare.com/client/v4/zones/" ++ tail)
  = Ok (mkURL "https" "" "api.cloudflare.com" (zones_path decoded)
          (if String.eqb (zones_path tail) (escape (zones_path decoded) encodePath)
           then "" else zones_path tail)
          false false "" "").
Proof.
  unfold parse.
  change (stringContainsCTLByte ("https://api.cloudflare.com/client/v4/zones/" ++ tail))
    with (stringContainsCTLByte tail).
  rewrite tail_no_ctl.
  change (String.eqb ("https://api.cloudflare.com/client/v4/zones/" ++ tail) "*")
    with false.
  change (getScheme ("https://api.cloudflare.com/client/v4/zones/" ++ tail))
    with (@inr url_err _ ("https", "//api.cloudflare.com/client/v4/zones/" ++ tail)).
  cbv beta iota zeta.
  change (ToLower "https") with "https".
  change (CountByte ("//api.cloudflare.com/client/v4/zones/" ++ tail) "?")
    with (CountByte tail "?").
  rewrite tail_no_query_count.
  change (0 =? 1) with false. rewrite andb_false_r.
  unfold Cut at 1.
  rewrite (IndexByte_app_none "//api.cloudflare.com/client/v4/zones/" tail "?")
    by (reflexivity || assumption).
  change (0 <=? -1) with false. cbv beta iota zeta.
  match goal with
  | |- ?lhs = _ =>
      change lhs with
        (match setPath (mkURL "https" "" "api.cloudflare.com" "" "" false false "" "")
                 (zones_path tail) with
         | inl e => @Err url_err URL e
         | inr u' => Ok u'
         end)
  end.
  unfold setPath, zones_path.
  rewrite (unescape_plain_app "/client/v4/zones/" tail) by reflexivity.
  rewrite tail_unescapes. reflexivity.
Qed.

End ParseZoneURL.

Lemma record_tail_clean zone record :
  let tail := record_tail (PathEscape zone) (PathEscape record) in
  stringContainsCTLByte tail = false
  /\ IndexByte tail "#" = -1
  /\ IndexByte tail "?" = -1
  /\ CountByte tail "?" = 0
  /\ unescape tail encodePath = inr (record_tail zone record).
Proof.
  destruct (PathEscape_clean zone) as (Z1 & Z2 & Z3 & Z4).
  destruct (PathEscape_clean record) as (R1 & R2 & R3 & R4).
  unfold record_tail. cbv zeta.
  rewrite !CTL_app, !CountByte_app, Z1, R1, Z4, R4.
  repeat split; try reflexivity.
  - repeat apply IndexByte_app_none; auto.
  - repeat apply IndexByte_app_none; auto.
  - rewrite unescape_PathEscape_app, unescape_plain_app by reflexivity.
    rewrite unescape_PathEscape. reflexivity.
Qed.

Lemma Parse_record_url cfg :
  Parse (record_url cfg) = Ok (URL_ (record_request cfg)).
Proof.
  destruct (record_tail_clean (ZoneID cfg) (RecordID cfg))
    as (H1 & H2 & H3 & H4 & H5).
  unfold Parse, record_url, Cut.
  fold (record_tail (PathEscape (ZoneID cfg)) (PathEscape (RecordID cfg))).
  rewrite (IndexByte_app_none "https://api.cloudflare.com/client/v4/zones/" _ "#")
    by (reflexivity || assumption).
  change (0 <=? -1) with false. cbv iota.
  rewrite (parse_zones_url _ _ H1 H3 H4 H5). reflexivity.
Qed.

Lemma NewRequest_record cfg :
  http_NewRequest "PUT" (record_url cfg) = Ok (record_request cfg).
Proof.
  unfold http_NewRequest.
  change (String.eqb "PUT" "") with false. cbv iota.
  change (validMethod "PUT") with true. cbv iota zeta. simpl negb. cbv iota.
  rewrite Parse_record_url. reflexivity.
Qed.

Lemma NewRequest_checkip :
  http_NewRequest "GET" checkip_url = Ok checkip_request.
Proof. vm_compute. reflexivity. Qed.

(** [newSyncFunc] returns, for every configuration and decorator: none of
    its three panics can happen, and no branch left out of the model of
    net/url is entered. *)
Lemma newSyncFunc_builds json_Marshal cfg deco :
  newSyncFunc json_Marshal cfg deco = Ok (built_closure json_Marshal cfg deco).
Proof.
  unfold newSyncFunc, built_closure.
  unfold Encoder_Encode.
  rewrite NewRequest_checkip, NewRequest_record.
  change ("" ++ json_Marshal (RecordName cfg) ++ LF)
    with (json_Marshal (RecordName cfg) ++ LF).
  rewrite StringFacts.TrimSuffix_app. reflexivity.
Qed.

End URLFacts.

(* ===================================================================== *)
(** ** Properties of one tick *)
(* ===================================================================== *)

Lemma non_2xx_false status : non_2xx status = false <-> 200 <= status < 300.
Proof.
  unfold non_2xx.
  destruct (Z.ltb_spec status 200), (Z.leb_spec 300 status); simpl;
    split; intros; try discriminate; try lia; reflexivity.
Qed.

Lemma network_calls_app tr1 tr2 :
  network_calls (tr1 ++ tr2) = (network_calls tr1 ++ network_calls tr2)%list.
Proof.
  induction tr1 as [|e tr1 IH]; simpl; [reflexivity|].
  destruct e; simpl; now rewrite ?IH.
Qed.

Lemma sync_attempts_app tr1 tr2 :
  sync_attempts (tr1 ++ tr2) = (sync_attempts tr1 + sync_attempts tr2)%nat.
Proof.
  induction tr1 as [|e tr1 IH]; simpl; [reflexivity|].
  destruct e as [[lvl msg attrs]| | |]; simpl; rewrite ?IH; lia.
Qed.

Section TickFacts.

Variable net_ParseIP : string -> bool.
Variable strings_TrimSpace : string -> string.
Variable json_Marshal : string -> string.

Local Abbreviation discover := (discover net_ParseIP strings_TrimSpace json_Marshal).
Local Abbreviation discovers := (discovers net_ParseIP strings_TrimSpace).
Local Abbreviation syncFunc := (syncFunc net_ParseIP strings_TrimSpace json_Marshal).

Implicit Types (f : closure) (hc : http_Client).

Lemma discover_calls f hc :
  network_calls (d_trace (discover f hc)) = [discovery_request f].
Proof.
  unfold Sync.discover. fold (discovery_request f).
  destruct (reply (hc (discovery_request f))) as [resp|err]; cbn; [|reflexivity].
  destruct (non_2xx (StatusCode resp)); cbn.
  - destruct (fails (Body (discovery_request f))); reflexivity.
  - destruct (fails (resp_Body resp)); cbn; [reflexivity|].
    destruct (net_ParseIP _); reflexivity.
Qed.

Lemma discover_attempts f hc : sync_attempts (d_trace (discover f hc)) = O.
Proof.
  unfold Sync.discover.
  destruct (reply _) as [resp|err]; cbn; [|reflexivity].
  destruct (non_2xx (StatusCode resp)); cbn.
  - destruct (fails _); reflexivity.
  - destruct (fails (resp_Body resp)); cbn; [reflexivity|].
    destruct (net_ParseIP _); reflexivity.
Qed.

Lemma discover_ok_iff f hc :
  d_err (discover f hc) = None <-> exists ip, discovers f hc ip.
Proof.
  unfold Sync.discover, Sync.discovers. fold (discovery_request f).
  destruct (reply (hc (discovery_request f))) as [resp|err]; cbn.
  2:{ split; [discriminate | intros (ip & resp & H & _); discriminate]. }
  destruct (non_2xx (StatusCode resp)) eqn:Hst; cbn.
  { split.
    - destruct (fails (Body (discovery_request f))); discriminate.
    - intros (ip & resp' & [= <-] & Hst' & _).
      apply non_2xx_false in Hst'. congruence. }
  apply non_2xx_false in Hst.
  destruct (fails (resp_Body resp)) eqn:Hf; cbn.
  { split; [discriminate|]. intros (ip & resp' & [= <-] & _ & Hf' & _). congruence. }
  destruct (net_ParseIP (strings_TrimSpace (unread (resp_Body resp)))) eqn:Hip; cbn.
  - split; [|reflexivity]. intros _. eexists; exists resp; eauto.
  - split; [discriminate|].
    intros (ip & resp' & [= <-] & _ & _ & -> & Hip'). congruence.
Qed.

Lemma discover_ok f hc ip :
  discovers f hc ip ->
  d_err (discover f hc) = None
  /\ d_ip (discover f hc) = ip
  /\ d_jsonIP (discover f hc) = json_Marshal ip.
Proof.
  intros (resp & Hr & Hst & Hf & -> & Hip).
  apply non_2xx_false in Hst.
  unfold Sync.discover. fold (discovery_request f).
  rewrite Hr; cbn. rewrite Hst; cbn. rewrite Hf; cbn. rewrite Hip; cbn.
  repeat split. exact (StringFacts.TrimSuffix_app (json_Marshal _) LF).
Qed.

Lemma update_calls f hc jsonIP :
  network_calls (snd (update f hc jsonIP)) = [update_request f jsonIP].
Proof.
  unfold update.
  destruct (reply (hc (update_request f jsonIP))) as [resp|err]; cbn; [|reflexivity].
  destruct (non_2xx (StatusCode resp)); cbn;
    destruct (fails (Body (update_request f jsonIP))); reflexivity.
Qed.

Lemma update_attempts f hc jsonIP : sync_attempts (snd (update f hc jsonIP)) = O.
Proof.
  unfold update.
  destruct (reply _) as [resp|err]; cbn; [|reflexivity].
  destruct (non_2xx (StatusCode resp)); cbn; destruct (fails _); reflexivity.
Qed.

Lemma update_ok_iff f hc jsonIP :
  fst (update f hc jsonIP) = None <-> update_accepted f hc jsonIP.
Proof.
  unfold update, update_accepted.
  destruct (reply (hc (update_request f jsonIP))) as [resp|err]; cbn.
  2:{ split; [discriminate | intros (resp & H & _); discriminate]. }
  destruct (non_2xx (StatusCode resp)) eqn:Hst; cbn.
  - split; [discriminate|]. intros (resp' & [= <-] & Hst').
    apply non_2xx_false in Hst'. congruence.
  - apply non_2xx_false in Hst. split; [|reflexivity]. intros _. exists resp; auto.
Qed.

(** The three ways a tick can go, once the discovery step has run. *)
Lemma syncFunc_discovery_failed f hc oldIP t e :
  d_err (discover f hc) = Some e ->
  t_err (syncFunc f hc oldIP t) = Some (wrapError msg_determine_ip (Some e))
  /\ t_oldIP (syncFunc f hc oldIP t) = oldIP
  /\ network_calls (t_trace (syncFunc f hc oldIP t)) = [discovery_request f].
Proof.
  intros He. unfold Sync.syncFunc. rewrite He. cbn.
  rewrite network_calls_app, discover_calls. auto.
Qed.

Lemma syncFunc_same f hc oldIP t :
  discovers f hc oldIP ->
  t_err (syncFunc f hc oldIP t) = None
  /\ t_oldIP (syncFunc f hc oldIP t) = oldIP
  /\ network_calls (t_trace (syncFunc f hc oldIP t)) = [discovery_request f].
Proof.
  intros Hd. apply discover_ok in Hd as (He & Hip & _).
  unfold Sync.syncFunc. rewrite He, Hip, String.eqb_refl. cbn.
  rewrite network_calls_app, discover_calls. auto.
Qed.

Lemma syncFunc_changed f hc oldIP t ip :
  discovers f hc ip -> ip <> oldIP ->
  let tk := syncFunc f hc oldIP t in
  network_calls (t_trace tk) = [discovery_request f; update_request f (json_Marshal ip)]
  /\ (update_accepted f hc (json_Marshal ip) -> t_err tk = None /\ t_oldIP tk = ip)
  /\ (~ update_accepted f hc (json_Marshal ip) ->
      (exists e, t_err tk = Some (wrapError msg_verify_update (Some e)))
      /\ t_oldIP tk = oldIP).
Proof.
  intros Hd Hne. apply discover_ok in Hd as (He & Hip & Hj).
  cbv zeta. unfold Sync.syncFunc. rewrite He, Hip, Hj.
  destruct (String.eqb_spec ip oldIP) as [|_]; [contradiction|].
  pose proof (update_calls f hc (json_Marshal ip)) as Hc.
  pose proof (update_ok_iff f hc (json_Marshal ip)) as Hok.
  destruct (update f hc (json_Marshal ip)) as [[e|] tr];
    cbn [fst snd] in Hc, Hok; cbn [t_trace t_err t_oldIP];
    rewrite !network_calls_app, discover_calls, Hc.
  - split; [reflexivity|]. split.
    + intros Ha. apply Hok in Ha. discriminate.
    + intros _. eauto.
  - split; [reflexivity|]. split; [auto|].
    intros Hn. exfalso. apply Hn, Hok. reflexivity.
Qed.

Lemma syncFunc_attempts f hc oldIP t :
  sync_attempts (t_trace (syncFunc f hc oldIP t)) = 1%nat.
Proof.
  unfold Sync.syncFunc.
  pose proof (discover_attempts f hc) as Hd.
  destruct (d_err (discover f hc)); cbn [t_trace].
  { rewrite !sync_attempts_app, Hd. reflexivity. }
  destruct (String.eqb _ _); cbn [t_trace].
  { rewrite !sync_attempts_app, Hd. reflexivity. }
  pose proof (update_attempts f hc (d_jsonIP (discover f hc))) as Hu.
  destruct (update _ _ _) as [[e|] tr]; cbn [snd] in Hu; cbn [t_trace];
    rewrite !sync_attempts_app, Hd, Hu; reflexivity.
Qed.

End TickFacts.

(* ===================================================================== *)
(** ** Properties of the sync loop *)
(* ===================================================================== *)

Import URLFacts.

(** The three pieces the program concatenates make the body of the
    provider interface. *)
Lemma body_concat name_json ip_json n :
  (body_head ++ name_json ++ body_mid) ++ ip_json ++ (body_ttl ++ Itoa n ++ body_tail)
  = expected_body name_json ip_json n.
Proof.
  unfold expected_body, body_head, body_mid, body_ttl, body_tail.
  rewrite !StringFacts.app_assoc. reflexivity.
Qed.

Lemma loop_returns net_ParseIP strings_TrimSpace json_Marshal f :
  forall before it after oldIP count t,
    Forall (fun i => cancelled i = false) before ->
    cancelled it = true ->
    exists tr,
      loop net_ParseIP strings_TrimSpace json_Marshal f
        (before ++ it :: after) oldIP count t = (true, tr)
      /\ sync_attempts tr = S (length before).
Proof.
  induction before as [|b before IH]; intros it after oldIP count t Hb Hit.
  - cbn [app loop length].
    set (tk := syncFunc _ _ _ f (answers it) oldIP t).
    pose proof (syncFunc_attempts net_ParseIP strings_TrimSpace json_Marshal
                  f (answers it) oldIP t) as Hn. fold tk in Hn.
    unfold cancelled in Hit.
    destruct (t_err tk); destruct (done_after_sync it); cbn in Hit |- *.
    all: try (eexists; split; [reflexivity|];
              rewrite ?sync_attempts_app, Hn; reflexivity).
    all: destruct (woken it); try discriminate.
    all: eexists; split; [reflexivity|];
         rewrite ?sync_attempts_app, Hn; reflexivity.
  - inversion Hb as [|? ? Hb1 Hb2]; subst.
    cbn [app loop length].
    set (tk := syncFunc _ _ _ f (answers b) oldIP t).
    pose proof (syncFunc_attempts net_ParseIP strings_TrimSpace json_Marshal
                  f (answers b) oldIP t) as Hn. fold tk in Hn.
    unfold cancelled in Hb1. apply orb_false_iff in Hb1 as [Hd Hw].
    rewrite Hd. destruct (woken b) as [|t']; [discriminate|].
    destruct (t_err tk).
    + destruct (IH it after (t_oldIP tk) (wrap64 (count + 1)) t' Hb2 Hit)
        as (tr & Htr & Hc).
      rewrite Htr. cbv beta iota. eexists; split; [reflexivity|].
      rewrite !sync_attempts_app, Hn. simpl. rewrite Hc. reflexivity.
    + destruct (IH it after (t_oldIP tk) 0 t' Hb2 Hit) as (tr & Htr & Hc).
      rewrite Htr. cbv beta iota. eexists; split; [reflexivity|].
      rewrite !sync_attempts_app, Hn. simpl. rewrite Hc. reflexivity.
Qed.

Section SyncProperties.

Variable net_ParseIP : string -> bool.
Variable strings_TrimSpace : string -> string.
Variable json_Marshal : string -> string.

Local Abbreviation discover := (discover net_ParseIP strings_TrimSpace json_Marshal).
Local Abbreviation discovers := (discovers net_ParseIP strings_TrimSpace).
Local Abbreviation syncFunc := (syncFunc net_ParseIP strings_TrimSpace json_Marshal).
Local Abbreviation newSyncFunc := (newSyncFunc json_Marshal).
Local Abbreviation built_closure := (built_closure json_Marshal).
Local Abbreviation run := (run net_ParseIP strings_TrimSpace json_Marshal).

Implicit Types (f : closure) (hc : http_Client) (cfg : config).

Lemma newSyncFunc_inv cfg deco f :
  newSyncFunc cfg deco = Ok f -> f = built_closure cfg deco.
Proof. rewrite newSyncFunc_builds. now intros [= <-]. Qed.

(** The update request of the closure [run] uses. *)
Lemma update_request_built cfg jsonIP :
  update_request (built_closure cfg run_reqDeco) jsonIP
  = mkRequest "PUT" (URL_ (record_request cfg))
      (<["User-Agent" := [user_agent]]>
         (<["Authorization" := ["Bearer " ++ ApiToken cfg]]>
            (<["Content-Type" := ["application/json"]]> ∅)))
      (strings_NewReader
         (expected_body (json_Marshal (RecordName cfg)) jsonIP (ttl cfg)))
      None "api.cloudflare.com".
Proof.
  unfold update_request, Sync.built_closure, run_reqDeco, Header_Set,
    set_header, set_GetBody, set_Body, Clone, io_NopCloser; cbn.
  rewrite body_concat. reflexivity.
Qed.

(** C1. In a tick whose discovery step finds [ip]:
    if [ip] is the cached [oldIP], the tick returns nil, leaves the cache
    alone and makes no call but the discovery one;
    if [ip] differs, the tick makes exactly one further call, the update
    whose body carries the JSON encoding of [ip] as content; the cache
    becomes [ip] exactly when the update is accepted (and then the tick
    returns nil); when it is not, the cache keeps [oldIP], and a next tick
    that discovers [ip] again makes the same update call. *)
Theorem change_detection cfg f hc oldIP t ip :
  newSyncFunc cfg run_reqDeco = Ok f ->
  discovers f hc ip ->
  let tk := syncFunc f hc oldIP t in
  let put := update_request f (json_Marshal ip) in
  (ip = oldIP ->
     t_err tk = None /\ t_oldIP tk = oldIP
     /\ network_calls (t_trace tk) = [discovery_request f])
  /\ (ip <> oldIP ->
        network_calls (t_trace tk) = [discovery_request f; put]
        /\ unread (Body put)
           = expected_body (json_Marshal (RecordName cfg)) (json_Marshal ip) (ttl cfg)
        /\ (t_oldIP tk = ip <-> update_accepted f hc (json_Marshal ip))
        /\ (t_err tk = None <-> update_accepted f hc (json_Marshal ip))
        /\ (~ update_accepted f hc (json_Marshal ip) ->
            t_oldIP tk = oldIP
            /\ forall hc' t',
                discovers f hc' ip ->
                network_calls (t_trace (syncFunc f hc' (t_oldIP tk) t'))
                = [discovery_request f; put])).
Proof.
  intros Hf Hd tk put. split.
  - intros ->. apply syncFunc_same. exact Hd.
  - intros Hne.
    destruct (syncFunc_changed net_ParseIP strings_TrimSpace json_Marshal
                f hc oldIP t ip Hd Hne) as (Hcalls & Hyes & Hno).
    fold tk in Hcalls, Hyes, Hno.
    split; [exact Hcalls|]. split.
    { subst put. rewrite (newSyncFunc_inv _ _ _ Hf), update_request_built.
      reflexivity. }
    assert (Hdec : update_accepted f hc (json_Marshal ip)
                   \/ ~ update_accepted f hc (json_Marshal ip)).
    { destruct (fst (update f hc (json_Marshal ip))) eqn:Hu.
      - right. intros Ha. apply update_ok_iff in Ha. congruence.
      - left. apply update_ok_iff. exact Hu. }
    split; [|split].
    + split; [|apply Hyes].
      intros Hip. destruct Hdec as [Ha|Hn]; [exact Ha|].
      destruct (Hno Hn) as [_ Hold]. congruence.
    + split; [|apply Hyes].
      intros He. destruct Hdec as [Ha|Hn]; [exact Ha|].
      destruct (Hno Hn) as [[e He'] _]. congruence.
    + intros Hn. destruct (Hno Hn) as [_ Hold]. split; [exact Hold|].
      intros hc' t' Hd'. rewrite Hold.
      apply (syncFunc_changed net_ParseIP strings_TrimSpace json_Marshal
               f hc' oldIP t' ip Hd' Hne).
Qed.

(** C6. The discovery step succeeds exactly when the transport yields a
    response, the status is in the 2xx range, the body reads to its end
    and the trimmed body is an IP literal.  When it fails, the tick returns
    the error wrapped under the discovery-phase message, the cache is left
    alone, and the discovery call is the only network call of the tick. *)
Theorem discovery_outcome f hc oldIP t :
  (d_err (discover f hc) = None <-> exists ip, discovers f hc ip)
  /\ (forall e,
        d_err (discover f hc) = Some e ->
        let tk := syncFunc f hc oldIP t in
        t_err tk = Some (wrapError msg_determine_ip (Some e))
        /\ option_map phase (t_err tk) = Some (Some "failed to determine IP address")
        /\ t_oldIP tk = oldIP
        /\ network_calls (t_trace tk) = [discovery_request f]).
Proof.
  split; [apply discover_ok_iff|].
  intros e He tk.
  destruct (syncFunc_discovery_failed net_ParseIP strings_TrimSpace json_Marshal
              f hc oldIP t e He) as (H1 & H2 & H3).
  fold tk in H1, H2, H3. rewrite H1. auto.
Qed.

(** C7. In a tick that reaches the update step, the request handed to the
    client is a PUT whose body is the text
    [{"type":"A","name":N,"content":I,"ttl":T,"proxied":false}] with [N] and
    [I] the JSON encodings of the record name and of the discovered
    address and [T] the decimal TTL, and whose header carries
    [Authorization: Bearer <token>] and [Content-Type: application/json]. *)
Theorem update_request_contract cfg f hc oldIP t ip :
  newSyncFunc cfg run_reqDeco = Ok f ->
  discovers f hc ip ->
  ip <> oldIP ->
  exists get put,
    network_calls (t_trace (syncFunc f hc oldIP t)) = [get; put]
    /\ Method put = "PUT"
    /\ Body put
       = strings_NewReader
           (expected_body (json_Marshal (RecordName cfg)) (json_Marshal ip) (ttl cfg))
    /\ reqBodyStrPrefix f ++ json_Marshal ip ++ reqBodyStrSuffix f
       = expected_body (json_Marshal (RecordName cfg)) (json_Marshal ip) (ttl cfg)
    /\ header put !! "Authorization" = Some ["Bearer " ++ ApiToken cfg]
    /\ header put !! "Content-Type" = Some ["application/json"].
Proof.
  intros Hf Hd Hne.
  destruct (syncFunc_changed net_ParseIP strings_TrimSpace json_Marshal
              f hc oldIP t ip Hd Hne) as (Hcalls & _).
  exists (discovery_request f), (update_request f (json_Marshal ip)).
  split; [exact Hcalls|].
  rewrite (newSyncFunc_inv _ _ _ Hf), update_request_built.
  cbn [Method Body header reqBodyStrPrefix reqBodyStrSuffix Sync.built_closure].
  rewrite body_concat.
  repeat split; reflexivity.
Qed.

(** C5. If the context is already cancelled at the check before the loop,
    [run] returns nil and no network call has been made.  Otherwise, in the
    first iteration in which one of the two [select]s takes the done
    channel, [run] returns nil, with one sync attempt per iteration so far
    and none after. *)
Theorem cancellation_returns_nil cfg (w : surroundings) :
  (forall reason,
      ctx_Err w = Some reason ->
      exists tr, run cfg w = run_returned None tr /\ network_calls tr = [])
  /\ (forall before it after,
        ctx_Err w = None ->
        script w = (before ++ it :: after)%list ->
        Forall (fun i => cancelled i = false) before ->
        cancelled it = true ->
        exists tr,
          run cfg w = run_returned None tr
          /\ sync_attempts tr = S (length before)).
Proof.
  split.
  - intros reason Hc. unfold Sync.run. rewrite newSyncFunc_builds, Hc.
    eexists; split; reflexivity.
  - intros before it after Hc Hs Hb Hit.
    unfold Sync.run. rewrite newSyncFunc_builds, Hc, Hs.
    destruct (loop_returns net_ParseIP strings_TrimSpace json_Marshal
                (built_closure cfg run_reqDeco) before it after "" 0 (time_Now w)
                Hb Hit) as (tr & Htr & Hn).
    rewrite Htr. cbv beta iota. eexists; split; [reflexivity|].
    simpl. rewrite !sync_attempts_app, Hn. simpl. lia.
Qed.

(** C9. For a configuration that [validate] accepts, [newSyncFunc] returns
    its closure: encoding the record name and building the two request
    templates, the second with the path-escaped zone and record ids, reach
    none of the three [panic] calls. *)
Theorem newSyncFunc_never_panics cfg deco :
  returned (validate cfg) = None ->
  exists f, newSyncFunc cfg deco = Ok f
            /\ readIPBaseReq f = checkip_request
            /\ setRecordBaseReq f = record_request cfg.
Proof.
  intros _. exists (built_closure cfg deco).
  split; [apply newSyncFunc_builds | split; reflexivity].
Qed.

(** The response body of a non-2xx discovery answer, and of any update
    answer, is closed in the state in which it was received: the drain
    reads the body of the request. *)
Lemma discover_non_2xx_closes_unread f hc resp :
  reply (hc (discovery_request f)) = inl resp ->
  non_2xx (StatusCode resp) = true ->
  closed_bodies (d_trace (discover f hc)) = [resp_Body resp].
Proof.
  intros Hr Hs. unfold Sync.discover. fold (discovery_request f).
  rewrite Hr; cbn. rewrite Hs; cbn.
  destruct (fails (Body (discovery_request f))); reflexivity.
Qed.

Lemma update_closes_unread f hc jsonIP resp :
  reply (hc (update_request f jsonIP)) = inl resp ->
  closed_bodies (snd (update f hc jsonIP)) = [resp_Body resp].
Proof.
  intros Hr. unfold update. rewrite Hr; cbn.
  destruct (non_2xx (StatusCode resp)); cbn;
    destruct (fails (Body (update_request f jsonIP))); reflexivity.
Qed.

End SyncProperties.

(* ===================================================================== *)
(** ** The properties on sample inputs *)
(* ===================================================================== *)

Section OnSamples.

Import Sample.

Local Abbreviation syncFunc' := (syncFunc ParseIP TrimSpace Marshal).
Local Abbreviation discovers' := (discovers ParseIP TrimSpace).

Lemma sample_closure_built :
  newSyncFunc Marshal cfg run_reqDeco = Ok the_closure.
Proof. apply newSyncFunc_builds. Qed.

Lemma sample_discovers provider :
  discovers' the_closure (client (ok_body 200 (LFs "203.0.113.7")) provider)
    "203.0.113.7".
Proof.
  exists (mkResponse 200 (mkReader (LFs "203.0.113.7") None)).
  split; [vm_compute; reflexivity|]. split; [cbn; lia|].
  repeat split; vm_compute; reflexivity.
Qed.

Lemma change_detection_witness :
  let hc := client (ok_body 200 (LFs "203.0.113.7")) (ok_body 503 "busy") in
  let tk := syncFunc' the_closure hc "198.51.100.1" 0 in
  let put := update_request the_closure (Marshal "203.0.113.7") in
  discovers' the_closure hc "203.0.113.7"
  /\ network_calls (t_trace tk) = [discovery_request the_closure; put]
  /\ t_oldIP tk = "198.51.100.1"
  /\ ~ update_accepted the_closure hc (Marshal "203.0.113.7").
Proof.
  intros hc tk put.
  pose proof (sample_discovers (ok_body 503 "busy")) as Hd.
  assert (Hne : "203.0.113.7" <> "198.51.100.1") by discriminate.
  assert (Hno : ~ update_accepted the_closure hc (Marshal "203.0.113.7")).
  { intros (resp & Hr & Hs). vm_compute in Hr. injection Hr as <-.
    cbn in Hs. lia. }
  destruct (change_detection ParseIP TrimSpace Marshal cfg the_closure hc
              "198.51.100.1" 0 "203.0.113.7" sample_closure_built Hd)
    as [_ Hchanged].
  destruct (Hchanged Hne) as (Hcalls & _ & _ & _ & Hkeep).
  destruct (Hkeep Hno) as [Hold _].
  auto.
Defined.

Lemma discovery_outcome_witness :
  let hc := client (ok_body 500 "busy") (ok_body 200 "{}") in
  let e := errors_New
             "response status code from checkip.amazonaws.com is not in 2xx range: 500" in
  let tk := syncFunc' the_closure hc "" 0 in
  d_err (discover ParseIP TrimSpace Marshal the_closure hc) = Some e
  /\ t_err tk = Some (wrapError msg_determine_ip (Some e))
  /\ network_calls (t_trace tk) = [discovery_request the_closure].
Proof.
  intros hc e tk.
  assert (He : d_err (discover ParseIP TrimSpace Marshal the_closure hc) = Some e)
    by (vm_compute; reflexivity).
  destruct (discovery_outcome ParseIP TrimSpace Marshal the_closure hc "" 0)
    as [_ Hfail].
  destruct (Hfail e He) as (H1 & _ & _ & H4).
  auto.
Defined.

Lemma update_request_contract_witness :
  let hc := client (ok_body 200 (LFs "203.0.113.7")) (ok_body 200 "{}") in
  exists get put,
    network_calls (t_trace (syncFunc' the_closure hc "" 0)) = [get; put]
    /\ Method put = "PUT"
    /\ Body put
       = strings_NewReader
           (expected_body (Marshal "home.example.com") (Marshal "203.0.113.7") 120)
    /\ header put !! "Authorization" = Some ["Bearer secret"]
    /\ header put !! "Content-Type" = Some ["application/json"].
Proof.
  intros hc.
  assert (Hne : "203.0.113.7" <> "") by discriminate.
  destruct (update_request_contract ParseIP TrimSpace Marshal cfg the_closure hc
              "" 0 "203.0.113.7" sample_closure_built
              (sample_discovers (ok_body 200 "{}")) Hne)
    as (get & put & H1 & H2 & H3 & _ & H5 & H6).
  exists get, put. auto.
Defined.

Lemma cancellation_returns_nil_witness :
  (exists tr,
      run ParseIP TrimSpace Marshal cfg cancelled_at_start = run_returned None tr
      /\ network_calls tr = [])
  /\ (exists tr,
        run ParseIP TrimSpace Marshal cfg two_ticks = run_returned None tr
        /\ sync_attempts tr = 2%nat).
Proof.
  split.
  - apply (proj1 (cancellation_returns_nil ParseIP TrimSpace Marshal cfg
                    cancelled_at_start) "context canceled").
    reflexivity.
  - apply (proj2 (cancellation_returns_nil ParseIP TrimSpace Marshal cfg two_ticks)
             [mkIteration (client (ok_body 200 (LFs "203.0.113.7")) (ok_body 200 "{}"))
                false (wake_tick 14400)]
             (mkIteration (client (ok_body 200 (LFs "203.0.113.7")) (ok_body 200 "{}"))
                false wake_done)
             [mkIteration (client (ok_body 200 (LFs "203.0.113.9")) (ok_body 200 "{}"))
                false (wake_tick 28800)]).
    + reflexivity.
    + reflexivity.
    + repeat constructor.
    + reflexivity.
Defined.

Lemma newSyncFunc_never_panics_witness :
  returned (validate cfg) = None
  /\ exists f, newSyncFunc Marshal cfg run_reqDeco = Ok f
               /\ readIPBaseReq f = checkip_request
               /\ setRecordBaseReq f = record_request cfg.
Proof.
  split; [vm_compute; reflexivity|].
  apply (newSyncFunc_never_panics Marshal cfg run_reqDeco).
  vm_compute; reflexivity.
Defined.

(** C4, on the code.  A discovery answer with status 500, and an update
    answer with status 503, each with a body whose stream would break if it
    were read: in both ticks the response body is closed with every byte
    unread, the tick reports the status and not the broken stream, and no
    record about the drain is logged.  What [io.Copy] reads is [req.Body]:
    [http.NoBody] in the discovery step, the reader the transport has
    already emptied in the update step. *)
Theorem response_body_is_closed_unread :
  let broken := Some (foreign "connection reset by peer") in
  let tick500 :=
    syncFunc' the_closure (client (broken_body 500 "busy") (ok_body 200 "{}")) "" 0 in
  let tick503 :=
    syncFunc' the_closure
      (client (ok_body 200 (LFs "203.0.113.7")) (broken_body 503 "rate limited"))
      "" 0 in
  closed_bodies (t_trace tick500) = [mkReader "busy" broken]
  /\ t_err tick500
     = Some (wrapError msg_determine_ip
               (Some (errors_New
                        "response status code from checkip.amazonaws.com is not in 2xx range: 500")))
  /\ closed_bodies (t_trace tick503)
     = [mkReader "" None; mkReader "rate limited" broken]
  /\ t_err tick503
     = Some (wrapError msg_verify_update
               (Some (errors_New "unexpected response status code from cloudflare: 503")))
  /\ List.filter
       (fun e => match e with
                 | ev_log (LogAttrs _ msg _) =>
                     String.eqb msg
                       "failed to read full non-success response body from cloudflare"
                 | _ => false
                 end)
       (t_trace tick503) = [].
Proof. vm_compute. repeat split. Qed.

End OnSamples.

(* ===================================================================== *)
(** ** Further properties of the configuration loader *)
(* ===================================================================== *)

Section MoreConfigProperties.

Implicit Types (c r : config) (file : cfg_file) (env : environ).

Lemma validate_nil_iff c :
  returned (validate c) = None <-> strings_present c /\ 1 <= ttl c.
Proof.
  unfold validate, validate_checks, strings_present; cbn [returned].
  destruct (String.eqb_spec (ApiToken c) ""); [split; [discriminate | tauto]|].
  destruct (String.eqb_spec (ZoneID c) ""); [split; [discriminate | tauto]|].
  destruct (String.eqb_spec (RecordID c) ""); [split; [discriminate | tauto]|].
  destruct (String.eqb_spec (RecordName c) ""); [split; [discriminate | tauto]|].
  destruct (Z.ltb_spec (ttl c) 1); split; try discriminate; try tauto.
  intros [_ ?]; lia.
Qed.

(** X1. [validate] returns nil exactly for a configuration whose API
    token, zone id, record id and record name are not empty and whose TTL
    is at least 1. *)
Theorem validate_accepts_iff c :
  returned (validate c) = None <-> strings_present c /\ 1 <= ttl c.
Proof. apply validate_nil_iff. Qed.

(** A successful [load] logs nothing, and records in [noCfgFile] whether
    the config file was absent. *)
Lemma load_success_flags c file env :
  returned (load c file env) = None ->
  logged (load c file env) = []
  /\ noCfgFile (receiver (load c file env)) = is_absent file.
Proof.
  unfold load.
  destruct file as [|e|partial e|r]; cbn [open_and_decode]; try discriminate.
  all: destruct (load_ttl _ _) as [[e logs]|r']; [discriminate|].
  all: cbv zeta.
  all: destruct (isEmpty _); cbn [negb]; try discriminate.
  all: try (destruct (isEmpty _); try discriminate).
  all: intros _; split; reflexivity.
Qed.

Lemma Load_nil_inv c file env :
  returned (Load c file env) = None ->
  strings_present (receiver (Load c file env))
  /\ 1 <= ttl (receiver (Load c file env))
  /\ receiver (Load c file env) = receiver (load c file env).
Proof.
  unfold Load. cbv zeta.
  destruct (returned (load c file env)) as [e|] eqn:Hl.
  - rewrite Hl. discriminate.
  - cbn [returned receiver]. intros Hv.
    apply validate_nil_iff in Hv as [Hs Ht]. auto.
Qed.

(** X2. When [Load] returns nil the receiver holds a configuration that
    satisfies the invariant of the data model: the four strings are not
    empty and the TTL is at least 1.  It is the value [load] merged. *)
Theorem Load_success_is_valid c file env :
  returned (Load c file env) = None ->
  strings_present (receiver (Load c file env))
  /\ 1 <= ttl (receiver (Load c file env))
  /\ receiver (Load c file env) = receiver (load c file env).
Proof. apply Load_nil_inv. Qed.

Lemma Load_success_is_valid_witness :
  let r := from_json "zone" "record" "name" "token" (Some 60) in
  returned (Load config_zero (file_decoded r) ∅) = None
  /\ strings_present (receiver (Load config_zero (file_decoded r) ∅))
  /\ 1 <= ttl (receiver (Load config_zero (file_decoded r) ∅)).
Proof.
  intros r.
  assert (H : returned (Load config_zero (file_decoded r) ∅) = None)
    by (vm_compute; reflexivity).
  destruct (Load_success_is_valid config_zero (file_decoded r) ∅ H) as (H1 & H2 & _).
  auto.
Defined.

(** X3. With no config file, a configuration given entirely by the
    environment is loaded and validated: the four strings are those of the
    variables, the TTL is the default 120, and [noCfgFile] is set. *)
Theorem environment_only_configuration c env zone record name token :
  env_nonempty env "CLOUDFLARE_ZONE_ID" = Some zone ->
  env_nonempty env "CLOUDFLARE_RECORD_ID" = Some record ->
  env_nonempty env "CLOUDFLARE_RECORD_NAME" = Some name ->
  env_nonempty env "CLOUDFLARE_API_TOKEN" = Some token ->
  env_nonempty env "CLOUDFLARE_RECORD_TTL" = None ->
  returned (Load c file_absent env) = None
  /\ receiver (Load c file_absent env)
     = mkConfig zone record name token None 120 true.
Proof.
  intros Hz Hr Hn Ht Httl.
  assert (Hne : forall k v, env_nonempty env k = Some v -> v <> "").
  { intros k v. unfold env_nonempty. destruct (env !! k) as [w|]; [|discriminate].
    destruct (String.eqb_spec w ""); [discriminate|]. now intros [= <-]. }
  assert (Hfill : forall k get set result v,
             get result = "" -> env_nonempty env k = Some v ->
             fill_from_env env k get set result = set result v).
  { intros k get set result v Hg Hv. unfold fill_from_env.
    rewrite Hg, Hv. reflexivity. }
  assert (Hload : load c file_absent env
                  = mkOutcome (mkConfig zone record name token None 120 true) None []).
  { unfold load. cbn [open_and_decode].
    rewrite (Hfill _ ZoneID set_ZoneID config_zero zone eq_refl Hz).
    rewrite (Hfill _ RecordID set_RecordID (set_ZoneID config_zero zone)
               record eq_refl Hr).
    rewrite (Hfill _ RecordName set_RecordName
               (set_RecordID (set_ZoneID config_zero zone) record)
               name eq_refl Hn).
    unfold load_ttl. rewrite Httl. cbn [TTLPtr set_RecordName set_RecordID
      set_ZoneID config_zero].
    rewrite (Hfill _ ApiToken set_ApiToken
               (set_ttl (set_RecordName
                           (set_RecordID (set_ZoneID config_zero zone) record)
                           name) 120)
               token eq_refl Ht).
    cbv zeta.
    replace (isEmpty _) with false; [reflexivity|].
    symmetry. apply bool_decide_eq_false. intros H.
    apply (f_equal ttl) in H. discriminate H. }
  unfold Load. cbv zeta. rewrite Hload. cbn [returned receiver logged].
  assert (Hv : returned (validate (mkConfig zone record name token None 120 true)) = None).
  { apply validate_nil_iff. unfold strings_present; cbn.
    repeat split; eauto; lia. }
  rewrite Hv. split; reflexivity.
Qed.

Lemma environment_only_configuration_witness :
  let env : environ :=
    {[ "CLOUDFLARE_ZONE_ID" := "zone"; "CLOUDFLARE_RECORD_ID" := "record";
       "CLOUDFLARE_RECORD_NAME" := "home.example.com";
       "CLOUDFLARE_API_TOKEN" := "secret" ]} in
  returned (Load config_zero file_absent env) = None
  /\ receiver (Load config_zero file_absent env)
     = mkConfig "zone" "record" "home.example.com" "secret" None 120 true.
Proof.
  intros env.
  apply (environment_only_configuration config_zero env
           "zone" "record" "home.example.com" "secret");
    vm_compute; reflexivity.
Defined.

Lemma env_nonempty_ne env k v : env_nonempty env k = Some v -> v <> "".
Proof.
  unfold env_nonempty. destruct (env !! k) as [w|]; [|discriminate].
  destruct (String.eqb_spec w ""); [discriminate|]. now intros [= <-].
Qed.

(** The four strings of the merge of an empty [result]: each is the
    variable's value, or empty when the variable is unset or empty. *)
Lemma merge_of_empty env r :
  load_ttl env (merged_ids env config_zero) = inr r ->
  let or_empty k := match env_nonempty env k with Some v => v | None => "" end in
  let m := fill_from_env env "CLOUDFLARE_API_TOKEN" ApiToken set_ApiToken r in
  ZoneID m = or_empty "CLOUDFLARE_ZONE_ID"
  /\ RecordID m = or_empty "CLOUDFLARE_RECORD_ID"
  /\ RecordName m = or_empty "CLOUDFLARE_RECORD_NAME"
  /\ ApiToken m = or_empty "CLOUDFLARE_API_TOKEN"
  /\ TTLPtr m = None
  /\ noCfgFile m = false.
Proof.
  intros Httl. apply load_ttl_inv in Httl as [Hr _]. cbv zeta.
  rewrite Hr. clear Hr.
  repeat split; fill_cases.
Qed.

(** X4. With no config file, or with the config file [{}], [load] returns
    the "no configuration" error exactly when CLOUDFLARE_RECORD_TTL is the
    string [0] and none of the four other variables is set to a non-empty
    value: only then is the merged [result] equal to the zero value when
    [isEmpty] is evaluated. *)
Theorem no_configuration_iff c file env :
  file = file_absent \/ file = file_decoded config_zero ->
  returned (load c file env) = Some (errors_New msg_no_configuration)
  <-> env_nonempty env "CLOUDFLARE_RECORD_TTL" = Some "0"
      /\ env_nonempty env "CLOUDFLARE_ZONE_ID" = None
      /\ env_nonempty env "CLOUDFLARE_RECORD_ID" = None
      /\ env_nonempty env "CLOUDFLARE_RECORD_NAME" = None
      /\ env_nonempty env "CLOUDFLARE_API_TOKEN" = None.
Proof.
  intros Hfile.
  assert (Hopen : exists noCfg,
             open_and_decode file = (config_zero, noCfg, None)
             /\ (noCfg = true \/ isEmpty config_zero = true)).
  { destruct Hfile as [-> | ->]; eexists; (split; [reflexivity|]); auto. }
  destruct Hopen as (noCfg & Hopen & Hwhy).
  split.
  - intros Herr. split; [eapply no_configuration_needs_zero_ttl; eauto|].
    revert Herr. unfold load. rewrite Hopen.
    fold (merged_ids env config_zero).
    destruct (load_ttl env (merged_ids env config_zero)) as [[e logs]|r] eqn:Httl.
    { cbn [returned]. unfold load_ttl in Httl.
      destruct (env_nonempty env "CLOUDFLARE_RECORD_TTL") as [s|].
      - destruct (Atoi s) as [v err].
        destruct (not_nil err || negb (String.eqb (Itoa v) s)); [|discriminate].
        injection Httl as <- _. discriminate.
      - destruct (TTLPtr _); discriminate. }
    destruct (merge_of_empty env r Httl) as (Hz & Hr & Hn & Ht & _).
    cbv zeta.
    destruct (isEmpty (fill_from_env env "CLOUDFLARE_API_TOKEN" ApiToken
                         set_ApiToken r)) eqn:Hempty.
    2:{ destruct noCfg; discriminate. }
    intros _. apply bool_decide_eq_true in Hempty.
    rewrite Hempty in Hz, Hr, Hn, Ht. cbn in Hz, Hr, Hn, Ht.
    repeat split.
    + destruct (env_nonempty env "CLOUDFLARE_ZONE_ID") as [v|] eqn:E; [|reflexivity].
      apply env_nonempty_ne in E. congruence.
    + destruct (env_nonempty env "CLOUDFLARE_RECORD_ID") as [v|] eqn:E; [|reflexivity].
      apply env_nonempty_ne in E. congruence.
    + destruct (env_nonempty env "CLOUDFLARE_RECORD_NAME") as [v|] eqn:E; [|reflexivity].
      apply env_nonempty_ne in E. congruence.
    + destruct (env_nonempty env "CLOUDFLARE_API_TOKEN") as [v|] eqn:E; [|reflexivity].
      apply env_nonempty_ne in E. congruence.
  - intros (Httl & Hz & Hr & Hn & Ht).
    unfold load. rewrite Hopen.
    unfold fill_from_env. rewrite Hz, Hr, Hn.
    cbn [ZoneID RecordID RecordName config_zero String.eqb].
    unfold load_ttl. rewrite Httl.
    change (Atoi "0") with (0, @None error). cbv beta iota.
    change (Itoa 0) with "0". cbn [not_nil orb negb String.eqb Ascii.eqb Bool.eqb].
    cbn [set_ttl ZoneID RecordID RecordName ApiToken TTLPtr noCfgFile String.eqb].
    rewrite Ht. cbv zeta.
    change (isEmpty (mkConfig "" "" "" "" None 0 false)) with true.
    destruct Hwhy as [-> | Hz0]; [reflexivity|].
    destruct noCfg; [reflexivity|].
    cbn [negb]. rewrite Hz0. reflexivity.
Qed.

Lemma no_configuration_iff_witness :
  let env : environ := {[ "CLOUDFLARE_RECORD_TTL" := "0" ]} in
  returned (load config_zero (file_decoded config_zero) env)
  = Some (errors_New msg_no_configuration)
  <-> env_nonempty env "CLOUDFLARE_RECORD_TTL" = Some "0"
      /\ env_nonempty env "CLOUDFLARE_ZONE_ID" = None
      /\ env_nonempty env "CLOUDFLARE_RECORD_ID" = None
      /\ env_nonempty env "CLOUDFLARE_RECORD_NAME" = None
      /\ env_nonempty env "CLOUDFLARE_API_TOKEN" = None.
Proof.
  intros env.
  apply (no_configuration_iff config_zero (file_decoded config_zero) env).
  right. reflexivity.
Defined.

(** X5. [Load] logs a failed validation only when no config file was
    found: then it writes one record, with the note and the error.  When a
    config file was read, a failed validation is returned without a
    record (the last [LogAttrs] of the deferred function is never
    reached). *)
Theorem validation_failure_logged_only_without_file c file env e :
  returned (load c file env) = None ->
  returned (Load c file env) = Some e ->
  logged (Load c file env)
  = if is_absent file then [validation_failed_record e] else [].
Proof.
  intros Hl He.
  destruct (load_success_flags c file env Hl) as [Hlog Hflag].
  revert He. unfold Load. cbv zeta. rewrite Hl. cbn [returned logged].
  rewrite Hlog. unfold validate. cbn [returned logged].
  intros ->. rewrite Hflag. destruct (is_absent file); reflexivity.
Qed.

Lemma validation_failure_logged_only_without_file_witness :
  let env : environ := {[ "CLOUDFLARE_ZONE_ID" := "zone" ]} in
  logged (Load config_zero file_absent env)
  = [validation_failed_record err_api_token]
  /\ logged (Load config_zero (file_decoded (from_json "zone" "" "" "" None)) ∅)
     = [].
Proof.
  intros env. split.
  - apply (validation_failure_logged_only_without_file config_zero file_absent
             env err_api_token); vm_compute; reflexivity.
  - apply (validation_failure_logged_only_without_file config_zero
             (file_decoded (from_json "zone" "" "" "" None)) ∅ err_api_token);
      vm_compute; reflexivity.
Defined.

(** X19. With no variable set, a config file that decodes always loads:
    [load] returns nil and the receiver holds the fields of the file, the
    TTL of the file (120 when it has none) and [noCfgFile] unset.  In
    particular the empty file [{}] loads, with TTL 120. *)
Theorem file_only_configuration c r env :
  no_variable env ->
  returned (load c (file_decoded r) env) = None
  /\ receiver (load c (file_decoded r) env)
     = set_noCfgFile (set_ttl r (file_ttl r)) false.
Proof.
  intros (Hz & Hr & Hn & Httl & Ht).
  assert (Hfill : forall k get set x,
             env_nonempty env k = None -> fill_from_env env k get set x = x).
  { intros k get set x Hk. unfold fill_from_env. rewrite Hk.
    destruct (String.eqb _ _); reflexivity. }
  unfold load. cbn [open_and_decode].
  rewrite !(Hfill _ _ _ _ Hz), !(Hfill _ _ _ _ Hr), !(Hfill _ _ _ _ Hn).
  assert (Hl : load_ttl env r = inr (set_ttl r (file_ttl r))).
  { unfold load_ttl, file_ttl. rewrite Httl. destruct (TTLPtr r); reflexivity. }
  rewrite Hl, !(Hfill _ _ _ _ Ht). cbv zeta.
  assert (Hne : isEmpty (set_ttl r (file_ttl r)) = false).
  { apply bool_decide_eq_false. intros H.
    pose proof (f_equal TTLPtr H) as Hp. pose proof (f_equal ttl H) as Hv.
    cbn in Hp, Hv. unfold file_ttl in Hv. rewrite Hp in Hv. discriminate Hv. }
  rewrite Hne. split; reflexivity.
Qed.

Lemma file_only_configuration_witness :
  no_variable ∅
  /\ returned (load config_zero (file_decoded (from_json "" "" "" "" None)) ∅) = None
  /\ receiver (load config_zero (file_decoded (from_json "" "" "" "" None)) ∅)
     = mkConfig "" "" "" "" None 120 false.
Proof.
  assert (H : no_variable ∅) by (repeat split; reflexivity).
  split; [exact H|].
  exact (file_only_configuration config_zero (from_json "" "" "" "" None) ∅ H).
Defined.

End MoreConfigProperties.

(* ===================================================================== *)
(** ** Further properties of a tick *)
(* ===================================================================== *)

Lemma closed_bodies_app tr1 tr2 :
  closed_bodies (tr1 ++ tr2) = (closed_bodies tr1 ++ closed_bodies tr2)%list.
Proof.
  induction tr1 as [|e tr1 IH]; simpl; [reflexivity|].
  destruct e; simpl; now rewrite ?IH.
Qed.

Section MoreTickProperties.

Variable net_ParseIP : string -> bool.
Variable strings_TrimSpace : string -> string.
Variable json_Marshal : string -> string.

Local Abbreviation discover := (discover net_ParseIP strings_TrimSpace json_Marshal).
Local Abbreviation discovers := (discovers net_ParseIP strings_TrimSpace).
Local Abbreviation syncFunc := (syncFunc net_ParseIP strings_TrimSpace json_Marshal).
Local Abbreviation newSyncFunc := (newSyncFunc json_Marshal).
Local Abbreviation built_closure := (built_closure json_Marshal).

Implicit Types (f : closure) (hc : http_Client) (cfg : config).

(** X6. A tick makes one network call or two, never more: the discovery
    request first, and then at most one update request.  Nothing is
    retried within a tick. *)
Theorem tick_makes_one_or_two_calls f hc oldIP t :
  let calls := network_calls (t_trace (syncFunc f hc oldIP t)) in
  calls = [discovery_request f]
  \/ calls = [discovery_request f;
              update_request f (d_jsonIP (discover f hc))].
Proof.
  cbv zeta. unfold Sync.syncFunc.
  destruct (d_err (discover f hc)); cbn [t_trace].
  { left. rewrite !network_calls_app, discover_calls. reflexivity. }
  destruct (String.eqb _ _); cbn [t_trace].
  { left. rewrite !network_calls_app, discover_calls. reflexivity. }
  right.
  pose proof (update_calls f hc (d_jsonIP (discover f hc))) as Hu.
  destruct (update _ _ _) as [[e|] tr]; cbn [snd] in Hu; cbn [t_trace];
    rewrite !network_calls_app, discover_calls, Hu; reflexivity.
Qed.

(** X7. A tick that returns an error leaves the cached address as it was,
    and the error is wrapped under one of the two phase messages: the
    discovery one or the update one. *)
Theorem tick_error_keeps_cache f hc oldIP t e :
  t_err (syncFunc f hc oldIP t) = Some e ->
  t_oldIP (syncFunc f hc oldIP t) = oldIP
  /\ (phase e = Some msg_determine_ip \/ phase e = Some msg_verify_update).
Proof.
  unfold Sync.syncFunc.
  destruct (d_err (discover f hc)); cbn [t_err t_oldIP].
  { intros [= <-]. auto. }
  destruct (String.eqb _ _); cbn [t_err t_oldIP]; [discriminate|].
  destruct (update _ _ _) as [[e'|] tr]; cbn [t_err t_oldIP]; [|discriminate].
  intros [= <-]. auto.
Qed.

Lemma tick_nil_inv f hc oldIP t :
  t_err (syncFunc f hc oldIP t) = None ->
  discovers f hc (t_oldIP (syncFunc f hc oldIP t)).
Proof.
  intros Hok.
  destruct (d_err (discover f hc)) as [e|] eqn:Hd.
  { revert Hok. unfold Sync.syncFunc. rewrite Hd. discriminate. }
  apply discover_ok_iff in Hd as [ip Hip].
  destruct (discover_ok net_ParseIP strings_TrimSpace json_Marshal f hc ip Hip)
    as (He & Hi & Hj).
  revert Hok. unfold Sync.syncFunc. rewrite He, Hi.
  destruct (String.eqb_spec ip oldIP) as [->|Hne]; cbn [t_err t_oldIP].
  { intros _. exact Hip. }
  destruct (update _ _ _) as [[e'|] tr]; cbn [t_err t_oldIP]; [discriminate|].
  intros _. exact Hip.
Qed.

(** X8. After a tick that returns nil, the cached address is the address
    the discovery step of that tick found. *)
Theorem tick_success_caches_discovered f hc oldIP t :
  t_err (syncFunc f hc oldIP t) = None ->
  discovers f hc (t_oldIP (syncFunc f hc oldIP t)).
Proof. apply tick_nil_inv. Qed.

(** X9. Two ticks in a row that discover the same address: when the first
    one has pushed it (the update was accepted), the second makes no
    update call, returns nil and keeps the cache. *)
Theorem same_address_is_not_pushed_twice f hc1 hc2 oldIP t1 t2 ip :
  discovers f hc1 ip ->
  t_err (syncFunc f hc1 oldIP t1) = None ->
  discovers f hc2 ip ->
  let second := syncFunc f hc2 (t_oldIP (syncFunc f hc1 oldIP t1)) t2 in
  network_calls (t_trace second) = [discovery_request f]
  /\ t_err second = None
  /\ t_oldIP second = ip.
Proof.
  intros H1 Hok H2.
  assert (Hcache : t_oldIP (syncFunc f hc1 oldIP t1) = ip).
  { pose proof (tick_nil_inv f hc1 oldIP t1 Hok) as Hd.
    destruct Hd as (resp & Hr & _ & _ & Hip & _).
    destruct H1 as (resp' & Hr' & _ & _ & Hip' & _).
    rewrite Hr in Hr'. injection Hr' as <-. congruence. }
  cbv zeta. rewrite Hcache.
  destruct (syncFunc_same net_ParseIP strings_TrimSpace json_Marshal f hc2 ip t2 H2)
    as (He & Ho & Hc).
  auto.
Qed.

(** X10. The cache starts empty, and the empty string is no IP literal;
    so the first tick that discovers an address pushes it, whatever the
    record held before the process started. *)
Theorem first_discovery_is_pushed f hc t ip :
  net_ParseIP "" = false ->
  discovers f hc ip ->
  network_calls (t_trace (syncFunc f hc "" t))
  = [discovery_request f; update_request f (json_Marshal ip)].
Proof.
  intros Hempty Hd.
  assert (Hne : ip <> "").
  { intros ->. destruct Hd as (_ & _ & _ & _ & _ & Hp). congruence. }
  apply (syncFunc_changed net_ParseIP strings_TrimSpace json_Marshal
           f hc "" t ip Hd Hne).
Qed.


(** X20. The outcome of the update step depends on the status code of the
    response alone: two clients that answer the update request with the
    same status give the same result, whatever the response bodies hold
    and whether or not they can be read. *)
Theorem update_outcome_depends_on_status_only f hc hc' jsonIP resp resp' :
  reply (hc (update_request f jsonIP)) = inl resp ->
  reply (hc' (update_request f jsonIP)) = inl resp' ->
  StatusCode resp = StatusCode resp' ->
  fst (update f hc jsonIP) = fst (update f hc' jsonIP).
Proof.
  intros H1 H2 Hs. unfold update. rewrite H1, H2, Hs.
  cbn. destruct (non_2xx (StatusCode resp')); reflexivity.
Qed.

(** X12. The discovery request carries nothing of the configuration: it
    is a GET of [https://checkip.amazonaws.com/] with an empty body and the
    User-Agent header alone.  The API token is sent to the provider only. *)
Theorem discovery_request_carries_no_secret cfg f :
  newSyncFunc cfg run_reqDeco = Ok f ->
  discovery_request f
  = mkRequest "GET"
      (mkURL "https" "" "checkip.amazonaws.com" "/" "" false false "" "")
      {[ "User-Agent" := [user_agent] ]}
      http_NoBody None "checkip.amazonaws.com".
Proof.
  rewrite newSyncFunc_builds. intros [= <-].
  unfold discovery_request, Sync.built_closure, run_reqDeco, Clone, set_header,
    Header_Set, checkip_request; cbn.
  f_equal.
Qed.

(** X13. Whatever bytes the zone and record ids hold, the update request
    goes to the provider: scheme https, host [api.cloudflare.com], no
    query and no fragment, and a path that decodes to
    [/client/v4/zones/<zone id>/dns_records/<record id>]. *)
Theorem update_request_targets_the_record cfg f jsonIP :
  newSyncFunc cfg run_reqDeco = Ok f ->
  let u := URL_ (update_request f jsonIP) in
  Scheme u = "https"
  /\ Host u = "api.cloudflare.com"
  /\ Host_ (update_request f jsonIP) = "api.cloudflare.com"
  /\ Opaque u = "" /\ RawQuery u = "" /\ Fragment u = ""
  /\ Path u = "/client/v4/zones/" ++ ZoneID cfg ++ "/dns_records/" ++ RecordID cfg
  /\ unescape ("/client/v4/zones/" ++ PathEscape (ZoneID cfg)
               ++ "/dns_records/" ++ PathEscape (RecordID cfg)) encodePath
     = inr (Path u).
Proof.
  rewrite newSyncFunc_builds. intros [= <-]. cbv zeta.
  unfold update_request, Sync.built_closure, run_reqDeco, Clone, set_header,
    set_GetBody, set_Body, record_request; cbn [reqDeco setRecordBaseReq
    URL_ Host_ Scheme Host Opaque RawQuery Fragment Path].
  repeat split.
  destruct (record_tail_clean (ZoneID cfg) (RecordID cfg)) as (_ & _ & _ & _ & Hu).
  fold (record_tail (PathEscape (ZoneID cfg)) (PathEscape (RecordID cfg))).
  rewrite (unescape_plain_app "/client/v4/zones/") by reflexivity.
  rewrite Hu. reflexivity.
Qed.

End MoreTickProperties.

(* ===================================================================== *)
(** ** Further properties of [run] and of the start-up *)
(* ===================================================================== *)

Lemma reports_app tr1 tr2 :
  reports (tr1 ++ tr2) = (reports tr1 ++ reports tr2)%list.
Proof.
  induction tr1 as [|e tr1 IH]; simpl; [reflexivity|].
  destruct e as [[lvl msg attrs]| | |]; simpl; rewrite ?IH; try reflexivity.
  destruct (String.eqb msg "sync ok"); [reflexivity|].
  destruct (String.eqb msg "sync fail"); [|reflexivity].
  destruct attrs as [|[] ?]; reflexivity.
Qed.

Lemma tick_times_app tr1 tr2 :
  tick_times (tr1 ++ tr2) = (tick_times tr1 ++ tick_times tr2)%list.
Proof.
  induction tr1 as [|e tr1 IH]; simpl; [reflexivity|].
  destruct e as [[lvl msg attrs]| | |]; simpl; rewrite ?IH; try reflexivity.
  destruct attrs as [|[] ?]; try reflexivity.
  destruct (String.eqb msg "sync running"); reflexivity.
Qed.

Lemma network_calls_logs (logs : list Record_) :
  network_calls (List.map ev_log logs) = [].
Proof. induction logs; simpl; auto. Qed.

Section MoreRunProperties.

Variable path_Join : string -> string -> string.
Variable net_ParseIP : string -> bool.
Variable strings_TrimSpace : string -> string.
Variable json_Marshal : string -> string.

Local Abbreviation discover := (discover net_ParseIP strings_TrimSpace json_Marshal).
Local Abbreviation syncFunc := (syncFunc net_ParseIP strings_TrimSpace json_Marshal).
Local Abbreviation loop := (loop net_ParseIP strings_TrimSpace json_Marshal).
Local Abbreviation run := (run net_ParseIP strings_TrimSpace json_Marshal).
Local Abbreviation built_closure := (built_closure json_Marshal).
Local Abbreviation newConfig := (newConfig path_Join).
Local Abbreviation Run := (Run path_Join net_ParseIP strings_TrimSpace json_Marshal).
Local Abbreviation main := (main path_Join net_ParseIP strings_TrimSpace json_Marshal).
Local Abbreviation ticks := (ticks net_ParseIP strings_TrimSpace json_Marshal).
Local Abbreviation run_ticks := (run_ticks net_ParseIP strings_TrimSpace json_Marshal).

Implicit Types (f : closure) (hc : http_Client) (cfg : config).

(** A tick writes neither outcome record, and one "sync running" record,
    with the tick time it was called with. *)
Lemma tick_reports f hc oldIP t :
  reports (t_trace (syncFunc f hc oldIP t)) = []
  /\ tick_times (t_trace (syncFunc f hc oldIP t)) = [t].
Proof.
  assert (Hd : reports (d_trace (discover f hc)) = []
               /\ tick_times (d_trace (discover f hc)) = []).
  { unfold Sync.discover.
    destruct (reply _) as [resp|err]; [|split; reflexivity].
    destruct (non_2xx (StatusCode resp)); cbn.
    - destruct (fails _); split; reflexivity.
    - destruct (fails (resp_Body resp)); cbn; [split; reflexivity|].
      destruct (net_ParseIP _); split; reflexivity. }
  assert (Hu : forall j, reports (snd (update f hc j)) = []
                         /\ tick_times (snd (update f hc j)) = []).
  { intros j. unfold update.
    destruct (reply _) as [resp|err]; [|split; reflexivity].
    cbn. destruct (non_2xx (StatusCode resp));
      destruct (fails _); split; reflexivity. }
  destruct Hd as [Hd1 Hd2].
  unfold Sync.syncFunc.
  destruct (d_err (discover f hc)); cbn [t_trace].
  { rewrite !reports_app, !tick_times_app, Hd1, Hd2. split; reflexivity. }
  destruct (String.eqb _ _); cbn [t_trace].
  { rewrite !reports_app, !tick_times_app, Hd1, Hd2. split; reflexivity. }
  destruct (Hu (d_jsonIP (discover f hc))) as [Hu1 Hu2].
  destruct (update _ _ _) as [[e|] tr]; cbn [snd] in Hu1, Hu2; cbn [t_trace];
    rewrite !reports_app, !tick_times_app, Hd1, Hd2, Hu1, Hu2;
    split; reflexivity.
Qed.

(** The network calls of the loop are those of its calls of the closure,
    in order. *)
Lemma loop_network_calls f its :
  forall oldIP count t,
    network_calls (snd (loop f its oldIP count t))
    = concat (List.map (fun tk => network_calls (t_trace tk))
                (ticks f its oldIP t)).
Proof.
  induction its as [|it its IH]; intros oldIP count t; [reflexivity|].
  cbn [Sync.loop Startup.ticks List.map concat].
  set (tk := syncFunc f (answers it) oldIP t).
  assert (Hrep : forall rep : list event,
             rep = [ev_log (LogAttrs LevelInfo "sync ok" [])]
             \/ (exists n e, rep = [ev_log (LogAttrs LevelError "sync fail"
                                              [slog_Int "consecutive_fail_count" n;
                                               errAttr (Some e)])]) ->
             network_calls rep = []).
  { intros rep [-> | (n & e & ->)]; reflexivity. }
  destruct (t_err tk) as [e|].
  - specialize (IH (t_oldIP tk) (wrap64 (count + 1))).
    destruct (done_after_sync it); cbn [snd List.map concat].
    { rewrite !network_calls_app. simpl. now rewrite !List.app_nil_r. }
    destruct (woken it) as [|t']; cbn [snd List.map concat].
    { rewrite !network_calls_app. simpl. now rewrite !List.app_nil_r. }
    specialize (IH t'). destruct (loop f its _ _ t') as [b tr]. cbn [snd] in *.
    rewrite !network_calls_app. simpl. now rewrite IH.
  - specialize (IH (t_oldIP tk) 0).
    destruct (done_after_sync it); cbn [snd List.map concat].
    { rewrite !network_calls_app. simpl. now rewrite !List.app_nil_r. }
    destruct (woken it) as [|t']; cbn [snd List.map concat].
    { rewrite !network_calls_app. simpl. now rewrite !List.app_nil_r. }
    specialize (IH t'). destruct (loop f its _ _ t') as [b tr]. cbn [snd] in *.
    rewrite !network_calls_app. simpl. now rewrite IH.
Qed.

(** The counter of [run] is an [int]: adding one wraps at 64 bits. *)
Lemma wrap64_succ a : wrap64 (wrap64 a + 1) = wrap64 (a + 1).
Proof.
  unfold wrap64.
  replace ((a + 2 ^ 63) mod 2 ^ 64 - 2 ^ 63 + 1 + 2 ^ 63)
    with ((a + 2 ^ 63) mod 2 ^ 64 + 1) by lia.
  rewrite Zplus_mod_idemp_l. do 2 f_equal. lia.
Qed.

Lemma failures_since_success_failed pre e :
  failures_since_success (pre ++ [Some e]) = S (failures_since_success pre).
Proof. unfold failures_since_success. now rewrite rev_unit. Qed.

Lemma failures_since_success_ok pre :
  failures_since_success (pre ++ [None]) = O.
Proof. unfold failures_since_success. now rewrite rev_unit. Qed.

(** The expected records of the calls that follow the calls [pre]: the
    first one, and the shift to the calls after it. *)
Lemma expected_reports_cons pre e errs :
  imap (fun i => expected_report (pre ++ e :: errs) (length pre + i)) (e :: errs)
  = expected_report pre (length pre) e
    :: imap (fun i => expected_report ((pre ++ [e]) ++ errs)
                        (length (pre ++ [e]) + i)) errs.
Proof.
  rewrite imap_cons. f_equal.
  - unfold expected_report. destruct e; [|reflexivity].
    rewrite Nat.add_0_r, firstn_all, firstn_app, Nat.sub_diag, firstn_all.
    simpl. now rewrite List.app_nil_r.
  - apply imap_ext. intros i x _. simpl.
    rewrite <- List.app_assoc, List.length_app. simpl.
    f_equal. lia.
Qed.

(** The outcome records of the loop, when it is entered after the calls
    [pre] with the counter they left. *)
Lemma loop_reports f its :
  forall oldIP t pre,
    reports (snd (loop f its oldIP
                    (wrap64 (Z.of_nat (failures_since_success pre))) t))
    = imap (fun i => expected_report
                       (pre ++ List.map t_err (ticks f its oldIP t))
                       (length pre + i))
        (List.map t_err (ticks f its oldIP t)).
Proof.
  induction its as [|it its IH]; intros oldIP t pre; [reflexivity|].
  cbn [Sync.loop Startup.ticks List.map].
  set (tk := syncFunc f (answers it) oldIP t).
  destruct (tick_reports f (answers it) oldIP t) as [Hr _]. fold tk in Hr.
  rewrite expected_reports_cons.
  assert (Hhead : expected_report pre (length pre) (t_err tk)
                  = match t_err tk with
                    | Some _ => Some (wrap64 (Z.of_nat (failures_since_success pre)))
                    | None => None
                    end).
  { unfold expected_report. now rewrite firstn_all. }
  rewrite Hhead. clear Hhead.
  destruct (t_err tk) as [e|].
  - assert (Hc : wrap64 (wrap64 (Z.of_nat (failures_since_success pre)) + 1)
                 = wrap64 (Z.of_nat (failures_since_success (pre ++ [Some e])))).
    { rewrite wrap64_succ, failures_since_success_failed. f_equal. lia. }
    rewrite Hc.
    specialize (IH (t_oldIP tk)).
    destruct (done_after_sync it); cbn [snd].
    { rewrite !reports_app, Hr. reflexivity. }
    destruct (woken it) as [|t']; cbn [snd].
    { rewrite !reports_app, Hr. reflexivity. }
    specialize (IH t' (pre ++ [Some e])%list).
    destruct (loop f its _ _ t') as [b tr]. cbn [snd] in *.
    rewrite !reports_app, Hr. simpl. now rewrite IH.
  - assert (Hc : 0 = wrap64 (Z.of_nat (failures_since_success (pre ++ [None]))))
      by now rewrite failures_since_success_ok.
    specialize (IH (t_oldIP tk)).
    destruct (done_after_sync it); cbn [snd].
    { rewrite !reports_app, Hr. reflexivity. }
    destruct (woken it) as [|t']; cbn [snd].
    { rewrite !reports_app, Hr. reflexivity. }
    specialize (IH t' (pre ++ [None])%list). rewrite <- Hc in IH.
    destruct (loop f its _ _ t') as [b tr]. cbn [snd] in *.
    rewrite !reports_app, Hr. simpl. now rewrite IH.
Qed.


Lemma loop_not_cancelled f its :
  forall oldIP count t,
    Forall (fun i => cancelled i = false) its ->
    exists tr,
      loop f its oldIP count t = (false, tr)
      /\ sync_attempts tr = length its
      /\ tick_times tr = firstn (length its) (t :: ticker_times its).
Proof.
  induction its as [|it its IH]; intros oldIP count t Hall.
  { eexists; repeat split; reflexivity. }
  inversion Hall as [|? ? Hit Hrest]; subst.
  unfold cancelled in Hit. apply orb_false_iff in Hit as [Hd Hw].
  cbn [Sync.loop length ticker_times].
  set (tk := syncFunc f (answers it) oldIP t).
  pose proof (syncFunc_attempts net_ParseIP strings_TrimSpace json_Marshal
                f (answers it) oldIP t) as Hn. fold tk in Hn.
  destruct (tick_reports f (answers it) oldIP t) as [_ Ht]. fold tk in Ht.
  rewrite Hd. destruct (woken it) as [|t']; [discriminate|].
  destruct (t_err tk).
  - destruct (IH (t_oldIP tk) (wrap64 (count + 1)) t' Hrest) as (tr & Htr & Hc & Hts).
    rewrite Htr. cbv beta iota. eexists; split; [reflexivity|]. split.
    + rewrite !sync_attempts_app, Hn. simpl. rewrite Hc. reflexivity.
    + rewrite !tick_times_app, Ht. simpl. rewrite Hts. reflexivity.
  - destruct (IH (t_oldIP tk) 0 t' Hrest) as (tr & Htr & Hc & Hts).
    rewrite Htr. cbv beta iota. eexists; split; [reflexivity|]. split.
    + rewrite !sync_attempts_app, Hn. simpl. rewrite Hc. reflexivity.
    + rewrite !tick_times_app, Ht. simpl. rewrite Hts. reflexivity.
Qed.

Lemma loop_returned_cancelled f its :
  forall oldIP count t tr,
    loop f its oldIP count t = (true, tr) ->
    Exists (fun i => cancelled i = true) its.
Proof.
  intros oldIP count t tr Hl.
  destruct (decide (Exists (fun i => cancelled i = true) its)) as [H|H];
    [exact H|].
  exfalso.
  assert (Hall : Forall (fun i => cancelled i = false) its).
  { apply Forall_forall. intros i Hi.
    destruct (cancelled i) eqn:E; [|reflexivity].
    exfalso. apply H. apply Exists_exists. exists i. split; [exact Hi | exact E]. }
  destruct (loop_not_cancelled f its oldIP count t Hall) as (tr' & Htr' & _).
  congruence.
Qed.

Lemma run_cases cfg (w : surroundings) :
  (forall v tr, run cfg w <> run_panicked v tr)
  /\ run cfg w <> run_unmodelled
  /\ (forall err tr,
        run cfg w = run_returned err tr ->
        err = None
        /\ (ctx_Err w <> None
            \/ Exists (fun i => cancelled i = true) (script w))).
Proof.
  unfold Sync.run. rewrite newSyncFunc_builds.
  destruct (ctx_Err w) as [reason|].
  { split; [discriminate|]. split; [discriminate|].
    intros err tr [= <- _]. split; [reflexivity|]. left. discriminate. }
  destruct (loop _ (script w) "" 0 (time_Now w)) as [[|] tr] eqn:Hl.
  - split; [discriminate|]. split; [discriminate|].
    intros err tr' [= <- _]. split; [reflexivity|].
    right. eapply loop_returned_cancelled. exact Hl.
  - split; [discriminate|]. split; [discriminate|]. discriminate.
Qed.

(** X15. [run] ends only by cancellation, and then with nil: it never
    panics, a return means that the context was cancelled at the check
    before the loop or that some iteration took the done channel, and the
    returned error is nil.  A failed sync never ends the loop. *)
Theorem run_ends_only_by_cancellation cfg (w : surroundings) :
  (forall v tr, run cfg w <> run_panicked v tr)
  /\ run cfg w <> run_unmodelled
  /\ (forall err tr,
        run cfg w = run_returned err tr ->
        err = None
        /\ (ctx_Err w <> None
            \/ Exists (fun i => cancelled i = true) (script w))).
Proof. apply run_cases. Qed.


(** X16. Without a cancellation [run] stays in its loop: it makes one
    sync attempt per iteration, the first with [time.Now()] as tick time
    and each later one with the time the ticker delivered. *)
Theorem uncancelled_run_keeps_ticking cfg (w : surroundings) :
  ctx_Err w = None ->
  Forall (fun i => cancelled i = false) (script w) ->
  exists tr,
    run cfg w = run_in_loop tr
    /\ sync_attempts tr = length (script w)
    /\ tick_times tr
       = firstn (length (script w)) (time_Now w :: ticker_times (script w)).
Proof.
  intros Hc Hall. unfold Sync.run. rewrite newSyncFunc_builds, Hc.
  destruct (loop_not_cancelled (built_closure cfg run_reqDeco) (script w)
              "" 0 (time_Now w) Hall) as (tr & Htr & Hn & Ht).
  rewrite Htr. cbv beta iota. eexists; split; [reflexivity|]. split.
  - simpl. exact Hn.
  - simpl. exact Ht.
Qed.

(** X17. [newConfig] returns either an error together with the zero
    configuration, or no error together with a configuration that passed
    validation; a configuration that failed to load or to validate never
    leaves it. *)
Theorem newConfig_contract (fs : files) env :
  match newConfig fs env with
  | (cfg, Some _, _) => cfg = config_zero
  | (cfg, None, _) => strings_present cfg /\ 1 <= ttl cfg
  end.
Proof.
  unfold Startup.newConfig. cbv zeta.
  destruct (returned (Load config_zero (fs (cfgFile_of path_Join env)) env))
    as [e|] eqn:Hl; [reflexivity|].
  destruct (Load_nil_inv _ _ _ Hl) as (H1 & H2 & _). auto.
Qed.


End MoreRunProperties.

(* ===================================================================== *)
(** ** The further properties on sample inputs *)
(* ===================================================================== *)

Section MoreOnSamples.

Import Sample.

Local Abbreviation syncFunc' := (syncFunc ParseIP TrimSpace Marshal).
Local Abbreviation discovers' := (discovers ParseIP TrimSpace).

Lemma validate_accepts_iff_witness :
  returned (validate cfg) = None /\ strings_present cfg /\ 1 <= ttl cfg.
Proof.
  assert (H : returned (validate cfg) = None) by (vm_compute; reflexivity).
  split; [exact H|]. apply (proj1 (validate_accepts_iff cfg)). exact H.
Defined.

Lemma tick_error_keeps_cache_witness :
  let e := wrapError msg_determine_ip
             (Some (errors_New
                      "response status code from checkip.amazonaws.com is not in 2xx range: 500")) in
  t_err (syncFunc' the_closure hc_busy "198.51.100.1" 0) = Some e
  /\ t_oldIP (syncFunc' the_closure hc_busy "198.51.100.1" 0) = "198.51.100.1"
  /\ (phase e = Some msg_determine_ip \/ phase e = Some msg_verify_update).
Proof.
  intros e.
  assert (H : t_err (syncFunc' the_closure hc_busy "198.51.100.1" 0) = Some e)
    by (vm_compute; reflexivity).
  split; [exact H|].
  exact (tick_error_keeps_cache ParseIP TrimSpace Marshal the_closure hc_busy
           "198.51.100.1" 0 e H).
Defined.

Lemma tick_success_caches_discovered_witness :
  t_err (syncFunc' the_closure hc_ok "" 0) = None
  /\ discovers' the_closure hc_ok (t_oldIP (syncFunc' the_closure hc_ok "" 0)).
Proof.
  assert (H : t_err (syncFunc' the_closure hc_ok "" 0) = None)
    by (vm_compute; reflexivity).
  split; [exact H|].
  exact (tick_success_caches_discovered ParseIP TrimSpace Marshal the_closure
           hc_ok "" 0 H).
Defined.

Lemma same_address_is_not_pushed_twice_witness :
  let second :=
    syncFunc' the_closure hc_ok (t_oldIP (syncFunc' the_closure hc_ok "" 0)) 14400 in
  network_calls (t_trace second) = [discovery_request the_closure]
  /\ t_err second = None
  /\ t_oldIP second = "203.0.113.7".
Proof.
  apply (same_address_is_not_pushed_twice ParseIP TrimSpace Marshal the_closure
           hc_ok hc_ok "" 0 14400 "203.0.113.7").
  - apply (sample_discovers (ok_body 200 "{}")).
  - vm_compute; reflexivity.
  - apply (sample_discovers (ok_body 200 "{}")).
Defined.

Lemma first_discovery_is_pushed_witness :
  ParseIP "" = false
  /\ network_calls (t_trace (syncFunc' the_closure hc_ok "" 0))
     = [discovery_request the_closure;
        update_request the_closure (Marshal "203.0.113.7")].
Proof.
  split; [reflexivity|].
  apply (first_discovery_is_pushed ParseIP TrimSpace Marshal the_closure hc_ok 0
           "203.0.113.7").
  - reflexivity.
  - apply (sample_discovers (ok_body 200 "{}")).
Defined.

Lemma discovery_request_carries_no_secret_witness :
  header (discovery_request the_closure) !! "Authorization" = None
  /\ discovery_request the_closure
     = mkRequest "GET"
         (mkURL "https" "" "checkip.amazonaws.com" "/" "" false false "" "")
         {[ "User-Agent" := [user_agent] ]}
         http_NoBody None "checkip.amazonaws.com".
Proof.
  split; [vm_compute; reflexivity|].
  apply (discovery_request_carries_no_secret Marshal cfg the_closure).
  apply sample_closure_built.
Defined.

Lemma update_request_targets_the_record_witness :
  let u := URL_ (update_request the_closure (Marshal "203.0.113.7")) in
  Host u = "api.cloudflare.com"
  /\ RawQuery u = ""
  /\ Path u = "/client/v4/zones/zone 1/dns_records/record/2"
  /\ RawPath u = "/client/v4/zones/zone%201/dns_records/record%2F2".
Proof.
  intros u.
  destruct (update_request_targets_the_record Marshal cfg the_closure
              (Marshal "203.0.113.7") sample_closure_built)
    as (_ & H2 & _ & _ & H5 & _ & H7 & _).
  split; [exact H2|]. split; [exact H5|]. split; [exact H7|].
  vm_compute; reflexivity.
Defined.

Lemma update_outcome_depends_on_status_only_witness :
  let put := update_request the_closure (Marshal "203.0.113.7") in
  let hc1 := client (ok_body 200 "x") (ok_body 503 "busy") in
  let hc2 := client (ok_body 200 "x") (broken_body 503 "rate limited") in
  fst (update the_closure hc1 (Marshal "203.0.113.7"))
  = fst (update the_closure hc2 (Marshal "203.0.113.7"))
  /\ fst (update the_closure hc1 (Marshal "203.0.113.7"))
     = Some (errors_New "unexpected response status code from cloudflare: 503").
Proof.
  intros put hc1 hc2. split; [|vm_compute; reflexivity].
  apply (update_outcome_depends_on_status_only the_closure hc1 hc2
           (Marshal "203.0.113.7")
           (mkResponse 503 (mkReader "busy" None))
           (mkResponse 503 (mkReader "rate limited"
                              (Some (foreign "connection reset by peer")))));
    vm_compute; reflexivity.
Defined.

Lemma run_ends_only_by_cancellation_witness :
  exists tr,
    run ParseIP TrimSpace Marshal cfg two_ticks = run_returned None tr
    /\ Exists (fun i => cancelled i = true) (script two_ticks).
Proof.
  destruct (run ParseIP TrimSpace Marshal cfg two_ticks) as [err tr| | |] eqn:E;
    try (vm_compute in E; discriminate E).
  destruct (proj2 (proj2 (run_ends_only_by_cancellation ParseIP TrimSpace Marshal
                            cfg two_ticks)) err tr E) as [-> [Hc|Hex]].
  - exfalso. apply Hc. reflexivity.
  - exists tr. split; [reflexivity | exact Hex].
Defined.

(** The failure counter on a run of five calls: two failed discoveries, a
    first address pushed, another failed discovery, a changed address
    pushed. *)
Example failure_counter_on_five_ticks :
  List.map (fun tk => not_nil (t_err tk))
    (run_ticks ParseIP TrimSpace Marshal cfg five_ticks)
  = [true; true; false; true; false]
  /\ reports (result_trace (run ParseIP TrimSpace Marshal cfg five_ticks))
     = [Some 0; Some 1; None; Some 0; None]
  /\ List.length (network_calls
                    (result_trace (run ParseIP TrimSpace Marshal cfg five_ticks)))
     = 7%nat.
Proof. vm_compute. repeat split. Qed.

Lemma uncancelled_run_keeps_ticking_witness :
  exists tr,
    run ParseIP TrimSpace Marshal cfg two_waits = run_in_loop tr
    /\ sync_attempts tr = 2%nat
    /\ tick_times tr = [7; 14400].
Proof.
  apply (uncancelled_run_keeps_ticking ParseIP TrimSpace Marshal cfg two_waits).
  - reflexivity.
  - repeat constructor.
Defined.


End MoreOnSamples.

(* ===================================================================== *)
(** ** [strconv.Atoi] reads back what [strconv.Itoa] writes *)
(* ===================================================================== *)

Module AtoiFacts.

Import Decimal.

Lemma wrap64_small z : - 2 ^ 63 <= z < 2 ^ 63 -> wrap64 z = z.
Proof. intros H. unfold wrap64. rewrite Z.mod_small; lia. Qed.

Lemma uint_value_mono d : forall acc, 0 <= acc -> acc <= uint_value d acc.
Proof.
  induction d; intros acc Hacc; simpl; [lia|..];
    (etransitivity; [|apply IHd; lia]); lia.
Qed.

Lemma uint_value_of_uint_acc d :
  forall acc, Z.pos (Pos.of_uint_acc d acc) = uint_value d (Z.pos acc).
Proof.
  induction d; intros acc; simpl; [reflexivity|..];
    rewrite IHd; f_equal; lia.
Qed.

Lemma uint_value_of_uint d : Z.of_N (Pos.of_uint d) = uint_value d 0.
Proof.
  induction d; simpl; [reflexivity | exact IHd |..];
    apply uint_value_of_uint_acc.
Qed.

Lemma uint_value_to_uint p : uint_value (Pos.to_uint p) 0 = Z.pos p.
Proof.
  rewrite <- uint_value_of_uint, DecimalPos.Unsigned.of_to. reflexivity.
Qed.

(** The fast-path loop of [Atoi] on a digit string: no syntax error, and
    no wrap-around as long as the number fits an [int]. *)
Lemma atoi_digits_string_of_uint d :
  forall acc,
    0 <= acc -> uint_value d acc < 2 ^ 63 ->
    atoi_digits (NilEmpty.string_of_uint d) acc = Some (uint_value d acc).
Proof.
  induction d; intros acc Hacc Hlt; [reflexivity|..];
    cbn [NilEmpty.string_of_uint atoi_digits uint_value] in *;
    match goal with
    | |- context [(byte_val ?c - 48) mod 256] =>
        let k := eval vm_compute in ((byte_val c - 48) mod 256) in
        change ((byte_val c - 48) mod 256) with k
    end;
    cbv beta iota zeta;
    match goal with
    | |- context [9 <? ?k] => change (9 <? k) with false
    end;
    cbv iota;
    match goal with
    | H : uint_value ?l ?a < _ |- _ =>
        pose proof (uint_value_mono l a ltac:(lia))
    end;
    rewrite wrap64_small by lia; apply IHd; lia.
Qed.

(** The loop of [ParseUint] on a digit string. *)
Lemma parseuint_digits_string_of_uint d :
  forall acc,
    0 <= acc -> uint_value d acc <= 2 ^ 63 ->
    parseuint_digits (NilEmpty.string_of_uint d) acc = inr (uint_value d acc).
Proof.
  induction d; intros acc Hacc Hle; [reflexivity|..];
    cbn [NilEmpty.string_of_uint parseuint_digits uint_value] in *;
    match goal with
    | |- context [byte_val ?c - 48] =>
        let d := eval vm_compute in (byte_val c - 48) in
        change (byte_val c - 48) with d;
        let k := eval vm_compute in (byte_val c) in
        change (byte_val c) with k
    end;
    match goal with
    | |- context [(48 <=? ?k) && (?k <=? 57)] =>
        change ((48 <=? k) && (k <=? 57)) with true
    end;
    cbv beta iota zeta;
    match goal with
    | H : uint_value ?l ?a <= _ |- _ =>
        pose proof (uint_value_mono l a ltac:(lia))
    end;
    change (max_uint64 / 10 + 1) with 1844674407370955162;
    change max_uint64 with 18446744073709551615;
    change (2 ^ 63) with 9223372036854775808 in *;
    (destruct (Z.leb_spec 1844674407370955162 acc); [lia|]);
    match goal with
    | |- context [18446744073709551615 <? ?n] =>
        destruct (Z.ltb_spec 18446744073709551615 n); [lia|]
    end;
    apply IHd; lia.
Qed.

Lemma string_of_to_uint p :
  NilZero.string_of_uint (Pos.to_uint p) = NilEmpty.string_of_uint (Pos.to_uint p)
  /\ exists c rest,
       NilEmpty.string_of_uint (Pos.to_uint p) = String c rest
       /\ Ascii.eqb c "-" = false /\ Ascii.eqb c "+" = false.
Proof.
  pose proof (DecimalPos.Unsigned.to_uint_nonnil p) as Hn.
  destruct (Pos.to_uint p); [contradiction|..];
    (split; [reflexivity|]); do 2 eexists; (split; [reflexivity|]);
    split; reflexivity.
Qed.

(** On the digits of a positive number that fits, with or without a
    minus sign in front, whichever path [Atoi] takes. *)
Lemma Atoi_digits_of_pos p :
  Z.pos p < 2 ^ 63 ->
  Atoi (NilEmpty.string_of_uint (Pos.to_uint p)) = (Z.pos p, None)
  /\ Atoi (String "-" (NilEmpty.string_of_uint (Pos.to_uint p))) = (Z.neg p, None).
Proof.
  intros Hlt.
  destruct (string_of_to_uint p) as (_ & c & rest & Hs & Hm & Hp).
  pose proof (atoi_digits_string_of_uint (Pos.to_uint p) 0 ltac:(lia)) as Hfast.
  pose proof (parseuint_digits_string_of_uint (Pos.to_uint p) 0 ltac:(lia)) as Hslow.
  rewrite uint_value_to_uint in Hfast, Hslow.
  specialize (Hfast Hlt). specialize (Hslow ltac:(lia)).
  rewrite Hs in Hfast, Hslow |- *.
  assert (Hu : ParseUint10 (String c rest) = (Z.pos p, None)).
  { unfold ParseUint10. rewrite Hslow. reflexivity. }
  split.
  - unfold Atoi.
    destruct ((0 <? String.length (String c rest))%nat
              && (String.length (String c rest) <? 19)%nat).
    + cbv zeta. rewrite Hm, Hp. cbn [orb andb]. rewrite Hfast. reflexivity.
    + unfold ParseInt10. rewrite Hm, Hp. cbn [orb]. rewrite Hu.
      cbn [negb andb].
      destruct (Z.leb_spec (2 ^ 63) (Z.pos p)); [lia|]. reflexivity.
  - unfold Atoi.
    destruct ((0 <? String.length (String "-" (String c rest)))%nat
              && (String.length (String "-" (String c rest)) <? 19)%nat).
    + cbv zeta. change (Ascii.eqb "-" "-") with true. cbn [orb andb].
      cbn [String.length Nat.ltb Nat.leb]. rewrite Hfast.
      rewrite wrap64_small by lia. reflexivity.
    + unfold ParseInt10. change (Ascii.eqb "-" "-") with true.
      change (Ascii.eqb "-" "+") with false. cbn [orb]. rewrite Hu.
      cbn [negb andb].
      destruct (Z.ltb_spec (2 ^ 63) (Z.pos p)); [lia|]. reflexivity.
Qed.

(** [Atoi(Itoa(v)) = v, nil] for every 64-bit [v]. *)
Lemma Atoi_Itoa v :
  - 2 ^ 63 <= v < 2 ^ 63 -> Atoi (Itoa v) = (v, None).
Proof.
  intros Hv. unfold Itoa. destruct v as [|p|p]; cbn [Z.to_int NilZero.string_of_int].
  - reflexivity.
  - destruct (string_of_to_uint p) as (-> & _).
    apply Atoi_digits_of_pos. lia.
  - destruct (string_of_to_uint p) as (-> & _).
    destruct (Z.eq_dec (Z.pos p) (2 ^ 63)) as [He|Hne].
    + assert (p = 9223372036854775808%positive) as -> by lia.
      vm_compute. reflexivity.
    + apply Atoi_digits_of_pos. lia.
Qed.

End AtoiFacts.

Section CanonicalTTL.

Import AtoiFacts.

(** X21. The strict parse rejects no valid TTL: for every [v] from 1 to
    the largest [int], CLOUDFLARE_RECORD_TTL set to the decimal form
    [strconv.Itoa] writes for [v] is accepted, and with a config file that
    gives the four strings [Load] returns nil with [v] as the TTL,
    whatever TTL the file holds. *)
Theorem canonical_ttl_loads (c r : config) (env : environ) v :
  1 <= v < 2 ^ 63 ->
  strings_present r ->
  env_nonempty env "CLOUDFLARE_RECORD_TTL" = Some (Itoa v) ->
  returned (Load c (file_decoded r) env) = None
  /\ ttl (receiver (Load c (file_decoded r) env)) = v.
Proof.
  intros Hv (Ht & Hz & Hr & Hn) Henv.
  assert (Httl : load_ttl env (merged_ids env r)
                 = inr (set_ttl (merged_ids env r) v)).
  { unfold load_ttl. rewrite Henv, Atoi_Itoa by lia.
    cbn [not_nil orb]. rewrite String.eqb_refl. reflexivity. }
  set (m := fill_from_env env "CLOUDFLARE_API_TOKEN" ApiToken set_ApiToken
              (set_ttl (merged_ids env r) v)).
  assert (Hm : strings_present m /\ ttl m = v).
  { subst m. unfold strings_present. repeat split; fill_cases. }
  assert (Hload : load c (file_decoded r) env
                  = mkOutcome (set_noCfgFile m false) None []).
  { unfold load. cbn [open_and_decode]. fold (merged_ids env r).
    rewrite Httl. fold m. cbv zeta.
    replace (isEmpty m) with false; [reflexivity|].
    symmetry. apply bool_decide_eq_false. intros H.
    destruct Hm as [(Hmt & _) _]. apply Hmt. rewrite H. reflexivity. }
  unfold Load. cbv zeta. rewrite Hload. cbn [returned receiver].
  destruct Hm as [Hs Hmv].
  assert (Hvalid : returned (validate (set_noCfgFile m false)) = None).
  { apply validate_nil_iff. cbn. split; [exact Hs | lia]. }
  rewrite Hvalid. cbn [receiver]. split; [reflexivity|].
  unfold validate. cbn. exact Hmv.
Qed.

Lemma canonical_ttl_loads_witness :
  let r := from_json "zone" "record" "name" "token" (Some 60) in
  let env : environ := {[ "CLOUDFLARE_RECORD_TTL" := "86400" ]} in
  returned (Load config_zero (file_decoded r) env) = None
  /\ ttl (receiver (Load config_zero (file_decoded r) env)) = 86400.
Proof.
  intros r env.
  apply (canonical_ttl_loads config_zero r env 86400).
  - lia.
  - repeat split; discriminate.
  - vm_compute; reflexivity.
Defined.

End CanonicalTTL.
